(** * EntityFu: the entity/component table of [EntityFu.cpp]

    A shallow embedding of the storage core of EntityFu and the proofs of
    its specified properties.

    Modelling choices, all read off the source:
    - [Eid] and [Cid] are unsigned integers.  The only arithmetic the source
      performs on them is the increment of a loop counter that is guarded by
      [kMaxEntities] or [numCids], so no value ever wraps; they are modelled
      as [nat].
    - [kMaxEntities] and [Component::numCids] are declared in [EntityFu.h];
      they are parameters of the development.
    - A [Component*] is either [nullptr] ([None]) or the address of an
      instance ([Some c]); the instances themselves are opaque.
    - The three static tables are nullable pointers, so each is an [option].
    - [delete ptr] and [Log(...)] are recorded in an event trace.
    - An access through a null table or outside an array is undefined
      behaviour: the computation has no result ([None]).
    - [verbosity] is a file-local constant equal to [0]; the branches it
      guards never run and are left out. *)

From stdpp Require Import base option list sets strings pretty.

Set Default Proof Using "Type".
Set Warnings "-clear-no-such-hyp".

(** [typedef unsigned Eid; typedef unsigned Cid;] *)
Abbreviation Eid := nat (only parsing).
Abbreviation Cid := nat (only parsing).

(** [#define kTrustPointers 0] *)
Definition kTrustPointers : nat := 0.

(** ** The monad of the source: global state, undefined behaviour

    A computation reads and writes the global state and either returns a
    value or has undefined behaviour ([None]). *)

Definition StateUB (St A : Type) : Type := St → option (A * St).

Definition ret {St A} (a : A) : StateUB St A := λ s, Some (a, s).

Definition bind {St A B} (m : StateUB St A) (f : A → StateUB St B) : StateUB St B :=
  λ s, match m s with
       | Some (a, s') => f a s'
       | None => None
       end.

Notation "'do' x <- m ; k" := (bind m (λ x, k))
  (at level 10, x at level 100, m at level 100, k at level 200, only parsing).
Notation "'do' m ; k" := (bind m (λ _, k))
  (at level 10, m at level 100, k at level 200, only parsing).

Section EntityFu.

Context {Component : Type}.

(** [Entity::kMaxEntities] and [Entity::Component::numCids]. *)
Variable kMaxEntities : nat.
Variable numCids : nat.

(** ** State *)

Inductive Event : Type :=
  | Deleted (c : Component)
  | Logged (msg : string).

Record State : Type := mkState {
  entities : option (list bool);
  components : option (list (list (option Component)));
  componentEids : option (list (list Eid));
  trace : list Event
}.

(** The state before anything is allocated: the three static pointers are
    initialised to [nullptr]. *)
Definition initial : State := mkState None None None [].

(** The computations of the source over its state. *)
Definition M (A : Type) : Type := StateUB State A.

(** [for (x : l) body(x);] *)
Fixpoint for_each {A} (l : list A) (body : A → M unit) : M unit :=
  match l with
  | [] => ret tt
  | x :: l' => do body x; for_each l' body
  end.

(** [entities[eid]] *)
Definition entity_at (eid : Eid) : M bool :=
  λ s, es ← entities s; b ← es !! eid; Some (b, s).

(** [entities[eid] = b] *)
Definition set_entity (eid : Eid) (b : bool) : M unit :=
  λ s, es ← entities s; _ ← es !! eid;
       Some (tt, mkState (Some (<[eid := b]> es)) (components s)
                         (componentEids s) (trace s)).

(** [components[cid][eid]] *)
Definition slot_at (cid : Cid) (eid : Eid) : M (option Component) :=
  λ s, cs ← components s; row ← cs !! cid; p ← row !! eid; Some (p, s).

(** [components[cid][eid] = p] *)
Definition set_slot (cid : Cid) (eid : Eid) (p : option Component) : M unit :=
  λ s, cs ← components s; row ← cs !! cid; _ ← row !! eid;
       Some (tt, mkState (entities s) (Some (<[cid := <[eid := p]> row]> cs))
                         (componentEids s) (trace s)).

(** [componentEids[cid]], read *)
Definition eids_at (cid : Cid) : M (list Eid) :=
  λ s, ds ← componentEids s; l ← ds !! cid; Some (l, s).

(** [componentEids[cid]], written through the reference *)
Definition set_eids (cid : Cid) (l : list Eid) : M unit :=
  λ s, ds ← componentEids s; _ ← ds !! cid;
       Some (tt, mkState (entities s) (components s)
                         (Some (<[cid := l]> ds)) (trace s)).

Definition emit (e : Event) : M unit :=
  λ s, Some (tt, mkState (entities s) (components s) (componentEids s)
                         (trace s ++ [e])).

(** [delete ptr] *)
Definition delete_ptr (c : Component) : M unit := emit (Deleted c).

(** [Log(msg)] *)
Definition Log (msg : string) : M unit := emit (Logged msg).

(** ** Allocation *)

(** [Entity::alloc]: nothing to do when [components] is set; otherwise the
    presence table is filled with [false], every slot array with [nullptr],
    and [new vector<Eid>[numCids]] default-constructs empty vectors. *)
Definition alloc : M unit :=
  λ s, match components s with
       | Some _ => Some (tt, s)
       | None =>
           Some (tt, mkState (Some (replicate kMaxEntities false))
                             (Some (replicate numCids (replicate kMaxEntities None)))
                             (Some (replicate numCids []))
                             (trace s))
       end.

(** ** Components *)

(** [std::find(eids.begin(), eids.end(), eid)] followed by
    [if (it != eids.end()) eids.erase(it)]. *)
Definition find_erase (eid : Eid) (eids : list Eid) : list Eid :=
  match list_find (λ x, x = eid) eids with
  | Some (i, _) => delete i eids
  | None => eids
  end.

(** [Entity::removeComponent] *)
Definition removeComponent (cid : Cid) (eid : Eid) : M unit :=
  if decide (kMaxEntities ≤ eid) then ret tt else
  do live <- entity_at eid;
  if negb live then ret tt else
  if decide (numCids ≤ cid) then ret tt else
  do ptr <- slot_at cid eid;
  match ptr with
  | None => ret tt
  | Some p =>
      do delete_ptr p;
      do set_slot cid eid None;
      do eids <- eids_at cid;
      set_eids cid (find_erase eid eids)
  end.

(** [Entity::addComponent] *)
Definition addComponent (cid : Cid) (eid : Eid) (c : option Component) : M unit :=
  match c with
  | None => ret tt
  | Some c' =>
      if decide (kMaxEntities ≤ eid) then ret tt else
      do live <- entity_at eid;
      if negb live then ret tt else
      if decide (numCids ≤ cid) then ret tt else
      do old <- slot_at cid eid;
      do (if old is Some _ then removeComponent cid eid else ret tt);
      do set_slot cid eid (Some c');
      do eids <- eids_at cid;
      set_eids cid (eids ++ [eid])
  end.

(** [Entity::getComponent]; the bounds test is compiled in when
    [kTrustPointers == 0]. *)
Definition getComponent (cid : Cid) (eid : Eid) : M (option Component) :=
  if decide (kTrustPointers = 0) then
    if decide (eid < kMaxEntities ∧ cid < numCids) then slot_at cid eid
    else ret None
  else slot_at cid eid.

(** [Entity::getAll]; [blankEids] is a static vector nobody writes to. *)
Definition getAll (cid : Cid) : M (list Eid) :=
  if decide (cid < numCids) then eids_at cid else ret [].

(** ** Entities *)

(** The scan of [Entity::create]:
    [for (; eid < kMaxEntities && entities[eid]; ++eid) {}].  The recursion
    is on [n], the number of identifiers from [eid] up to [kMaxEntities], so
    the test [eid < kMaxEntities] of the source is the test that [n] is not
    [0]: [create] starts the scan at [1] with [n = kMaxEntities - 1]. *)
Fixpoint scan (n : nat) (eid : Eid) : M Eid :=
  match n with
  | 0 => ret eid
  | S n' =>
      do live <- entity_at eid;
      if live then scan n' (S eid) else ret eid
  end.

(** [Entity::create] *)
Definition create : M Eid :=
  do alloc;
  do eid <- scan (kMaxEntities - 1) 1;
  do (if decide (eid < 1 ∨ kMaxEntities ≤ eid)
      then Log "Maximum number of entities reached!"
      else set_entity eid true);
  ret eid.

(** [Entity::destroyNow] *)
Definition destroyNow (eid : Eid) : M unit :=
  if decide (eid = 0) then ret tt else
  do for_each (seq 0 numCids) (λ cid, removeComponent cid eid);
  set_entity eid false.

(** [Entity::destroyAll] *)
Definition destroyAll : M unit :=
  for_each (seq 1 (kMaxEntities - 1))
    (λ eid, do live <- entity_at eid;
            if live then destroyNow eid else ret tt).

(** [Entity::dealloc]; the three [delete []] leave dangling pointers that
    are overwritten with [nullptr] right after. *)
Definition free_tables : M unit :=
  λ s, Some (tt, mkState None None None (trace s)).

Definition dealloc : M unit :=
  λ s, match components s with
       | Some _ => (do destroyAll; free_tables) s
       | None => free_tables s
       end.

(** [Entity::count()] *)
Fixpoint count_from (l : list Eid) (acc : nat) : M nat :=
  match l with
  | [] => ret acc
  | eid :: l' =>
      do live <- entity_at eid;
      count_from l' (if live then S acc else acc)
  end.

Definition count : M nat := count_from (seq 1 (kMaxEntities - 1)) 0.

(** [Entity::count(Cid)] *)
Definition count_cid (cid : Cid) : M nat :=
  do eids <- getAll cid; ret (length eids).

(** ** Observations

    What a caller can see of a state: liveness of an identifier, the content
    of a slot, the dense list of a component type.  Absent storage reads as
    "not live", "empty" and "no identifiers". *)

Definition live (s : State) (eid : Eid) : bool :=
  default false (es ← entities s; es !! eid).

Definition slot (s : State) (cid : Cid) (eid : Eid) : option Component :=
  cs ← components s; row ← cs !! cid; mjoin (row !! eid).

Definition dense (s : State) (cid : Cid) : list Eid :=
  default [] (ds ← componentEids s; ds !! cid).

(** Number of occurrences of an identifier in a dense list. *)
Definition occurrences (eid : Eid) (l : list Eid) : nat :=
  length (filter (λ x, x = eid) l).

(** ** Well-formed states

    The shape [alloc] establishes: the three tables exist and have the
    sizes [kMaxEntities] and [numCids]. *)

Inductive wf : State → Prop :=
  | wf_intro es cs ds tr :
      length es = kMaxEntities →
      length cs = numCids →
      length ds = numCids →
      (∀ cid row, cs !! cid = Some row → length row = kMaxEntities) →
      wf (mkState (Some es) (Some cs) (Some ds) tr).

(** I2, in the form that is preserved by every operation: a dense list has
    no duplicates and holds exactly the identifiers whose slot is occupied. *)
Definition consistent (s : State) : Prop :=
  ∀ cid, NoDup (dense s cid) ∧
         ∀ eid, eid ∈ dense s cid ↔ is_Some (slot s cid eid).

Definition Inv (s : State) : Prop := wf s ∧ consistent s.

(** The state [alloc] produces from the initial one. *)
Definition fresh (tr : list Event) : State :=
  mkState (Some (replicate kMaxEntities false))
          (Some (replicate numCids (replicate kMaxEntities None)))
          (Some (replicate numCids []))
          tr.

(** The calls of the public interface that change the state. *)
Inductive Call : Type :=
  | CCreate
  | CDestroyNow (eid : Eid)
  | CDestroyAll
  | CAddComponent (cid : Cid) (eid : Eid) (c : option Component)
  | CRemoveComponent (cid : Cid) (eid : Eid).

Definition exec (c : Call) : M unit :=
  match c with
  | CCreate => do create; ret tt
  | CDestroyNow eid => destroyNow eid
  | CDestroyAll => destroyAll
  | CAddComponent cid eid c => addComponent cid eid c
  | CRemoveComponent cid eid => removeComponent cid eid
  end.

(** States reachable from the freshly allocated one by calls whose
    behaviour is defined. *)
Inductive reachable : State → Prop :=
  | reachable_fresh : reachable (fresh [])
  | reachable_step s c s' :
      reachable s → exec c s = Some (tt, s') → reachable s'.

(** The last three statements of [addComponent]: the slot is written and
    the identifier is appended to the dense list. *)
Definition install (cid : Cid) (eid : Eid) (c : Component) : M unit :=
  do set_slot cid eid (Some c);
  do eids <- eids_at cid;
  set_eids cid (eids ++ [eid]).

(** The number of live identifiers in [1, kMaxEntities). *)
Definition live_count (s : State) : nat :=
  length (filter (λ eid, live s eid = true) (seq 1 (kMaxEntities - 1))).

(** [n] consecutive calls of [create], collecting the identifiers. *)
Fixpoint create_many (n : nat) : M (list Eid) :=
  match n with
  | 0 => ret []
  | S n' => do e <- create; do es <- create_many n'; ret (e :: es)
  end.

(** The events a call appended to the trace. *)
Definition events_since (s s' : State) : list Event :=
  drop (length (trace s)) (trace s').


(** ** Ownership of instances

    The table takes over the instance it is handed and deletes it when it is
    detached.  An instance is held when some slot stores it, and destroyed
    when the table has deleted it. *)
Definition held (s : State) (c : Component) : Prop :=
  ∃ cid eid, slot s cid eid = Some c.

Definition destroyed (s : State) (c : Component) : Prop :=
  Deleted c ∈ trace s.

(** Every stored instance is stored in one slot only and has not been
    destroyed: what the table looks like as long as each instance attached
    was one its caller owned. *)
Definition exclusive (s : State) : Prop :=
  (∀ cid eid c, slot s cid eid = Some c → ¬ destroyed s c) ∧
  (∀ cid eid cid' eid' c,
     slot s cid eid = Some c → slot s cid' eid' = Some c →
     cid = cid' ∧ eid = eid').

(** A call respects ownership when the instance it attaches, if any, is
    one its caller owns: the table neither holds it nor has destroyed it. *)
Definition respects (s : State) (c : Call) : Prop :=
  match c with
  | CAddComponent _ _ (Some x) => ¬ held s x ∧ ¬ destroyed s x
  | _ => True
  end.

(** States reachable by calls that respect ownership. *)
Inductive disciplined : State → Prop :=
  | disciplined_fresh : disciplined (fresh [])
  | disciplined_step s c s' :
      disciplined s → respects s c → exec c s = Some (tt, s') → disciplined s'.

(** ** Sample tables

    Tables on which the statements below are exercised; each is reached from
    the freshly allocated table by a few calls. *)

(** [kMaxEntities = 4], [numCids = 2]: after [create()] twice, then
    [addComponent(0, 1, a)], [addComponent(1, 1, b)], [addComponent(0, 2, c)]. *)
Definition sample_calls (a b c : Component) : list Call :=
  [CCreate; CCreate; CAddComponent 0 1 (Some a); CAddComponent 1 1 (Some b);
   CAddComponent 0 2 (Some c)].

Definition sample (a b c : Component) : State :=
  mkState (Some [false; true; true; false])
          (Some [[None; Some a; Some c; None]; [None; Some b; None; None]])
          (Some [[1; 2]; [1]])
          [].

(** [kMaxEntities = 3], [numCids = 1]: after [create()] twice, every
    identifier of [1, 3) is live. *)
Definition sample_full : State :=
  mkState (Some [false; true; true]) (Some [[None; None; None]]) (Some [[]]) [].

(** The example scenario of the specification, returning what [getAll(0)],
    [getComponent(0, 1)] and [count(0)] report at its end. *)
Definition scenario (x y : Component) : M (Eid * Eid * list Eid * list Eid * option Component * nat) :=
  do e1 <- create;
  do e2 <- create;
  do addComponent 0 e1 (Some x);
  do addComponent 0 e2 (Some y);
  do before <- getAll 0;
  do destroyNow e1;
  do after <- getAll 0;
  do p <- getComponent 0 e1;
  do n <- count_cid 0;
  ret (e1, e2, before, after, p, n).

(** ** Diagnostics *)

(** The line [Entity::log] prints:
    ["Cid %u has %d entities ranging from %u to %u"].  The count goes
    through [%d]; it is the size of a dense list, far below [2^31]. *)
Definition log_text (cid : Cid) (n : nat) (first last : Eid) : string :=
  "Cid " +:+ pretty cid +:+ " has " +:+ pretty n +:+
  " entities ranging from " +:+ pretty first +:+ " to " +:+ pretty last.

(** [Entity::log] *)
Definition log (cid : Cid) : M unit :=
  do n <- count_cid cid;
  do eids <- getAll cid;
  if decide (0 < length eids)
  then Log (log_text cid n (default 0 (head eids)) (default 0 (last eids)))
  else ret tt.

(** [Entity::logAll] *)
Definition logAll : M unit := for_each (seq 0 numCids) log.

(** The lines [logAll] is expected to print in a state: one for each
    component type whose dense list is not empty, in ascending order. *)
Definition log_lines (s : State) : list Event :=
  omap (λ cid, let l := dense s cid in
               if decide (0 < length l)
               then Some (Logged (log_text cid (length l) (default 0 (head l))
                                           (default 0 (last l))))
               else None)
       (seq 0 numCids).

(** ** Ownership *)

(** I1 and I4: identifier [0] is not live, and an occupied slot belongs to
    a live entity. *)
Definition owned (s : State) : Prop :=
  live s 0 = false ∧ ∀ cid eid, is_Some (slot s cid eid) → live s eid = true.

(** The deletions [destroyNow(eid)] is expected to perform: the components
    of the entity, by ascending component type. *)
Definition deletions_of (s : State) (eid : Eid) : list Event :=
  omap (λ cid, Deleted <$> slot s cid eid) (seq 0 numCids).

(** The number of identifiers whose slot for [cid] is occupied. *)
Definition occupied_count (s : State) (cid : Cid) : nat :=
  length (filter (λ eid, is_Some (slot s cid eid)) (seq 0 kMaxEntities)).

(** * Lemmas *)

(** ** Basic facts *)

Lemma bind_Some {A B} (m : M A) (f : A → M B) s a s' :
  m s = Some (a, s') → bind m f s = f a s'.
Proof. unfold bind. by intros ->. Qed.

Lemma bind_inv {A B} (m : M A) (f : A → M B) s b s2 :
  bind m f s = Some (b, s2) →
  ∃ a s1, m s = Some (a, s1) ∧ f a s1 = Some (b, s2).
Proof.
  unfold bind. destruct (m s) as [[a s1]|]; [|done]. intros H. by exists a, s1.
Qed.

Lemma for_each_hoare {A} (I : list A → State → Prop) (l : list A) (body : A → M unit) s :
  I [] s →
  (∀ pre x post s1, l = pre ++ x :: post → I pre s1 →
     ∃ s2, body x s1 = Some (tt, s2) ∧ I (pre ++ [x]) s2) →
  ∃ s', for_each l body s = Some (tt, s') ∧ I l s'.
Proof.
  intros H0 Hstep.
  assert (Hgen : ∀ post pre s1, l = pre ++ post → I pre s1 →
            ∃ s', for_each post body s1 = Some (tt, s') ∧ I l s').
  { induction post as [|x post IH]; intros pre s1 Hl HI.
    - rewrite app_nil_r in Hl. subst pre. by exists s1.
    - destruct (Hstep pre x post s1 Hl HI) as (s2 & Hb & HI2).
      destruct (IH (pre ++ [x]) s2) as (s' & Hf & HI').
      { by rewrite <- app_assoc. } { done. }
      exists s'. split; [|done]. simpl. by rewrite (bind_Some _ _ _ _ _ Hb). }
  by apply (Hgen l [] s).
Qed.

Lemma for_each_id {A} (l : list A) (body : A → M unit) s :
  (∀ x, x ∈ l → body x s = Some (tt, s)) →
  for_each l body s = Some (tt, s).
Proof.
  induction l as [|x l IH]; intros H; [done|].
  simpl. rewrite (bind_Some _ _ _ _ _ (H x (list_elem_of_here _ _))).
  apply IH. intros y Hy. apply H. by apply list_elem_of_further.
Qed.

Lemma wf_entity_lookup s eid :
  wf s → eid < kMaxEntities → entity_at eid s = Some (live s eid, s).
Proof.
  intros [es cs ds tr Hes _ _ _] Hlt. unfold entity_at, live. simpl.
  destruct (lookup_lt_is_Some_2 es eid) as [b Hb]; [lia|]. by rewrite Hb.
Qed.

Lemma wf_slot_lookup s cid eid :
  wf s → cid < numCids → eid < kMaxEntities →
  slot_at cid eid s = Some (slot s cid eid, s).
Proof.
  intros [es cs ds tr _ Hcs _ Hrow] Hc He. unfold slot_at, slot. simpl.
  destruct (lookup_lt_is_Some_2 cs cid) as [row Hr]; [lia|]. rewrite Hr. simpl.
  destruct (lookup_lt_is_Some_2 row eid) as [p Hp]; [rewrite (Hrow _ _ Hr); lia|].
  by rewrite Hp.
Qed.

Lemma wf_eids_lookup s cid :
  wf s → cid < numCids → eids_at cid s = Some (dense s cid, s).
Proof.
  intros [es cs ds tr _ _ Hds _] Hc. unfold eids_at, dense. simpl.
  destruct (lookup_lt_is_Some_2 ds cid) as [l Hl]; [lia|]. by rewrite Hl.
Qed.

Lemma slot_Some_bounds s cid eid p :
  wf s → slot s cid eid = Some p → cid < numCids ∧ eid < kMaxEntities.
Proof.
  intros [es cs ds tr _ Hcs _ Hrow]. unfold slot. simpl.
  destruct (cs !! cid) as [row|] eqn:Hr; [|done]. simpl.
  destruct (row !! eid) as [q|] eqn:Hq; [|done]. intros _.
  pose proof (Hrow _ _ Hr) as Hlen.
  apply lookup_lt_Some in Hr, Hq. lia.
Qed.

(** ** [find_erase] *)

Lemma find_erase_split eid (l : list nat) :
  eid ∈ l →
  ∃ l1 l2, l = l1 ++ eid :: l2 ∧ (eid ∉ l1) ∧ find_erase eid l = l1 ++ l2.
Proof.
  intros Hin. unfold find_erase.
  destruct (list_find_elem_of (λ x, x = eid) l eid Hin eq_refl) as [[i x] Hf].
  rewrite Hf. apply list_find_Some in Hf as (Hi & -> & Hbefore).
  exists (take i l), (drop (S i) l). split_and!.
  - by rewrite take_drop_middle.
  - intros [j Hj]%list_elem_of_lookup_1.
    apply lookup_take_Some in Hj as [Hj Hlt]. by apply (Hbefore j eid).
  - apply delete_take_drop.
Qed.

Lemma find_erase_absent eid (l : list nat) : eid ∉ l → find_erase eid l = l.
Proof.
  intros Hnin. unfold find_erase.
  destruct (list_find _ l) as [[i x]|] eqn:Hf; [|done].
  apply list_find_Some in Hf as (Hi & -> & _).
  destruct Hnin. by apply list_elem_of_lookup_2 with i.
Qed.

Lemma find_erase_NoDup eid (l : list nat) :
  NoDup l →
  NoDup (find_erase eid l) ∧ ∀ x, x ∈ find_erase eid l ↔ x ∈ l ∧ x ≠ eid.
Proof.
  intros Hnd. destruct (decide (eid ∈ l)) as [Hin|Hnin].
  - destruct (find_erase_split eid l Hin) as (l1 & l2 & -> & Hl1 & ->).
    apply NoDup_app in Hnd as (Hnd1 & Hdisj & [Hl2 Hnd2]%NoDup_cons).
    split.
    + apply NoDup_app. split_and!; [done| |done].
      intros x Hx Hx2. apply (Hdisj x Hx). by right.
    + intros x. rewrite !elem_of_app, elem_of_cons. naive_solver.
  - rewrite (find_erase_absent _ _ Hnin). split; [done|]. naive_solver.
Qed.

(** ** [removeComponent] and [addComponent], step by step *)

Lemma removeComponent_eq es cs ds tr cid eid row l p :
  eid < kMaxEntities → cid < numCids →
  es !! eid = Some true → cs !! cid = Some row →
  row !! eid = Some (Some p) → ds !! cid = Some l →
  removeComponent cid eid (mkState (Some es) (Some cs) (Some ds) tr)
  = Some (tt, mkState (Some es)
                      (Some (<[cid := <[eid := None]> row]> cs))
                      (Some (<[cid := find_erase eid l]> ds))
                      (tr ++ [Deleted p])).
Proof.
  intros He Hc Hes Hcs Hrow Hds. unfold removeComponent.
  rewrite decide_False by lia.
  unfold bind, entity_at, slot_at, delete_ptr, emit, set_slot, eids_at, set_eids.
  cbn. rewrite Hes. cbn. rewrite decide_False by lia.
  cbn. rewrite Hcs. cbn. rewrite Hrow. cbn. rewrite Hcs. cbn. rewrite Hrow. cbn.
  rewrite Hds. cbn. by rewrite Hds.
Qed.

Lemma removeComponent_noop s cid eid :
  wf s →
  kMaxEntities ≤ eid ∨ live s eid = false ∨ numCids ≤ cid ∨ slot s cid eid = None →
  removeComponent cid eid s = Some (tt, s).
Proof.
  intros Hwf Hcase. unfold removeComponent.
  destruct (decide (kMaxEntities ≤ eid)) as [|He]; [done|].
  rewrite (bind_Some _ _ _ _ _ (wf_entity_lookup s eid Hwf ltac:(lia))).
  destruct (live s eid) eqn:Hlive; [|done]. simpl.
  destruct (decide (numCids ≤ cid)) as [|Hc]; [done|].
  rewrite (bind_Some _ _ _ _ _ (wf_slot_lookup s cid eid Hwf ltac:(lia) ltac:(lia))).
  destruct Hcase as [?|[?|[?| ->]]]; [lia|done|lia|done].
Qed.

Lemma slot_insert es es' cs ds ds' tr tr' cid eid row q cid' eid' :
  cs !! cid = Some row → eid < length row →
  slot (mkState es' (Some (<[cid := <[eid := q]> row]> cs)) ds' tr') cid' eid'
  = if decide (cid' = cid ∧ eid' = eid) then q
    else slot (mkState es (Some cs) ds tr) cid' eid'.
Proof.
  intros Hcs Hlt. unfold slot. cbn.
  destruct (decide (cid' = cid)) as [->|Hne].
  - rewrite list_lookup_insert_eq by (by eapply lookup_lt_Some). cbn. rewrite Hcs. cbn.
    destruct (decide (eid' = eid)) as [->|Hne].
    + rewrite list_lookup_insert_eq by done. by rewrite decide_True.
    + rewrite list_lookup_insert_ne by done. rewrite decide_False; [done|naive_solver].
  - rewrite list_lookup_insert_ne by done. rewrite decide_False; [done|naive_solver].
Qed.

Lemma dense_insert es es' cs cs' ds tr tr' cid l l' cid' :
  ds !! cid = Some l →
  dense (mkState es' cs' (Some (<[cid := l']> ds)) tr') cid'
  = if decide (cid' = cid) then l' else dense (mkState es cs (Some ds) tr) cid'.
Proof.
  intros Hds. unfold dense. cbn. destruct (decide (cid' = cid)) as [->|Hne].
  - by rewrite list_lookup_insert_eq by (by eapply lookup_lt_Some).
  - by rewrite list_lookup_insert_ne.
Qed.

Lemma wf_insert_row es cs ds tr tr' cid eid row q l :
  wf (mkState (Some es) (Some cs) (Some ds) tr) →
  cs !! cid = Some row →
  wf (mkState (Some es) (Some (<[cid := <[eid := q]> row]> cs))
              (Some (<[cid := l]> ds)) tr').
Proof.
  intros Hwf Hcs. inversion Hwf as [? ? ? ? Hes Hlen Hds Hrows]; subst.
  constructor; rewrite ?length_insert; try done.
  intros cid' row' Hr. destruct (decide (cid' = cid)) as [->|Hne].
  - rewrite list_lookup_insert_eq in Hr by (by eapply lookup_lt_Some).
    injection Hr as <-. rewrite length_insert. by eapply Hrows.
  - rewrite list_lookup_insert_ne in Hr by done. by eapply Hrows.
Qed.

(** What a state looks like where a slot is occupied. *)
Lemma slot_Some_inv es cs ds tr cid eid p :
  wf (mkState (Some es) (Some cs) (Some ds) tr) →
  slot (mkState (Some es) (Some cs) (Some ds) tr) cid eid = Some p →
  ∃ row l, cs !! cid = Some row ∧ row !! eid = Some (Some p) ∧ ds !! cid = Some l.
Proof.
  intros Hwf Hslot. inversion Hwf as [? ? ? ? Hes Hlen Hds Hrows]; subst.
  unfold slot in Hslot. cbn in Hslot.
  destruct (cs !! cid) as [row|] eqn:Hr; [|done]. cbn in Hslot.
  destruct (row !! eid) as [[q|]|] eqn:Hq; try done. cbn in Hslot.
  destruct (lookup_lt_is_Some_2 ds cid) as [l Hl].
  { apply lookup_lt_Some in Hr. lia. }
  exists row, l. by simplify_eq.
Qed.

Lemma live_true_inv es cs ds tr eid :
  live (mkState (Some es) cs ds tr) eid = true → es !! eid = Some true.
Proof.
  unfold live. cbn. destruct (es !! eid) as [b|]; [|done]. cbn. by intros ->.
Qed.

Lemma live_bound s eid : wf s → live s eid = true → eid < kMaxEntities.
Proof.
  intros [es cs ds tr Hes _ _ _] Hl%live_true_inv.
  apply lookup_lt_Some in Hl. lia.
Qed.

(** The effect of [removeComponent] on an occupied slot of a live entity. *)
Lemma removeComponent_occupied s cid eid p :
  wf s → live s eid = true → slot s cid eid = Some p →
  ∃ s', removeComponent cid eid s = Some (tt, s') ∧ wf s' ∧
        entities s' = entities s ∧
        (∀ cid' eid', slot s' cid' eid' =
           if decide (cid' = cid ∧ eid' = eid) then None else slot s cid' eid') ∧
        (∀ cid', dense s' cid' =
           if decide (cid' = cid) then find_erase eid (dense s cid) else dense s cid') ∧
        trace s' = trace s ++ [Deleted p].
Proof.
  intros Hwf Hlive Hslot.
  destruct (slot_Some_bounds s cid eid p Hwf Hslot) as [Hc He].
  destruct Hwf as [es cs ds tr Hes Hcs Hds Hrows].
  assert (Hwf : wf (mkState (Some es) (Some cs) (Some ds) tr)) by by constructor.
  destruct (slot_Some_inv _ _ _ _ _ _ _ Hwf Hslot) as (row & l & Hr & Hp & Hl).
  apply live_true_inv in Hlive.
  eexists. split; [by eapply removeComponent_eq|]. split_and!.
  - eapply wf_insert_row; [exact Hwf|done].
  - done.
  - intros cid' eid'. apply slot_insert; [done|]. by eapply lookup_lt_Some.
  - intros cid'. rewrite (dense_insert (Some es) _ (Some cs) _ ds tr _ _ l) by done.
    case_decide; [|done]. unfold dense. cbn. by rewrite Hl.
  - done.
Qed.

Lemma install_run s cid eid c :
  wf s → cid < numCids → eid < kMaxEntities →
  ∃ s', install cid eid c s = Some (tt, s') ∧ wf s' ∧
        entities s' = entities s ∧
        (∀ cid' eid', slot s' cid' eid' =
           if decide (cid' = cid ∧ eid' = eid) then Some c else slot s cid' eid') ∧
        (∀ cid', dense s' cid' =
           if decide (cid' = cid) then dense s cid ++ [eid] else dense s cid') ∧
        trace s' = trace s.
Proof.
  intros Hwf Hc He. destruct Hwf as [es cs ds tr Hes Hcs Hds Hrows].
  assert (Hwf : wf (mkState (Some es) (Some cs) (Some ds) tr)) by by constructor.
  destruct (lookup_lt_is_Some_2 cs cid) as [row Hr]; [lia|].
  destruct (lookup_lt_is_Some_2 ds cid) as [l Hl]; [lia|].
  destruct (lookup_lt_is_Some_2 row eid) as [q Hq]; [rewrite (Hrows _ _ Hr); lia|].
  exists (mkState (Some es) (Some (<[cid := <[eid := Some c]> row]> cs))
                  (Some (<[cid := l ++ [eid]]> ds)) tr).
  split_and!.
  - unfold install, bind, set_slot, eids_at, set_eids. cbn.
    rewrite Hr. cbn. rewrite Hq. cbn. rewrite Hl. cbn. by rewrite Hl.
  - eapply wf_insert_row; [exact Hwf|done].
  - done.
  - intros cid' eid'. apply slot_insert; [done|]. by eapply lookup_lt_Some.
  - intros cid'. rewrite (dense_insert (Some es) _ (Some cs) _ ds tr _ _ l) by done.
    case_decide; [|done]. unfold dense. cbn. by rewrite Hl.
  - done.
Qed.

Lemma addComponent_noop s cid eid c :
  wf s →
  c = None ∨ kMaxEntities ≤ eid ∨ live s eid = false ∨ numCids ≤ cid →
  addComponent cid eid c s = Some (tt, s).
Proof.
  intros Hwf Hcase. unfold addComponent. destruct c as [c|]; [|done].
  destruct (decide (kMaxEntities ≤ eid)) as [|He]; [done|].
  rewrite (bind_Some _ _ _ _ _ (wf_entity_lookup s eid Hwf ltac:(lia))).
  destruct (live s eid) eqn:Hlive; [|done]. cbn.
  destruct (decide (numCids ≤ cid)) as [|Hc]; [done|].
  destruct Hcase as [?|[?|[?|?]]]; [done|lia|done|lia].
Qed.

(** [addComponent] on valid arguments is the optional [removeComponent]
    followed by [install]. *)
Lemma addComponent_valid s cid eid c :
  wf s → live s eid = true → cid < numCids →
  addComponent cid eid (Some c) s
  = (do (if slot s cid eid is Some _ then removeComponent cid eid else ret tt);
     install cid eid c) s.
Proof.
  intros Hwf Hlive Hc. pose proof (live_bound s eid Hwf Hlive) as He.
  unfold addComponent. rewrite decide_False by lia.
  rewrite (bind_Some _ _ _ _ _ (wf_entity_lookup s eid Hwf He)).
  rewrite Hlive. cbn. rewrite decide_False by lia.
  by rewrite (bind_Some _ _ _ _ _ (wf_slot_lookup s cid eid Hwf Hc He)).
Qed.

(** ** The presence table *)

Lemma slot_same_components s s' cid eid :
  components s' = components s → slot s' cid eid = slot s cid eid.
Proof. unfold slot. by intros ->. Qed.

Lemma dense_same_eids s s' cid :
  componentEids s' = componentEids s → dense s' cid = dense s cid.
Proof. unfold dense. by intros ->. Qed.

Lemma live_same_entities s s' eid :
  entities s' = entities s → live s' eid = live s eid.
Proof. unfold live. by intros ->. Qed.

Lemma slot_out_of_range s cid eid :
  wf s → numCids ≤ cid ∨ kMaxEntities ≤ eid → slot s cid eid = None.
Proof.
  intros Hwf Hor. destruct (slot s cid eid) as [p|] eqn:Hs; [|done].
  destruct (slot_Some_bounds s cid eid p Hwf Hs). lia.
Qed.

Lemma dense_out_of_range s cid : wf s → numCids ≤ cid → dense s cid = [].
Proof.
  intros [es cs ds tr _ _ Hds _] Hc. unfold dense. cbn.
  by rewrite lookup_ge_None_2 by lia.
Qed.

Lemma set_entity_run s eid b :
  wf s → eid < kMaxEntities →
  ∃ s', set_entity eid b s = Some (tt, s') ∧ wf s' ∧
        (∀ j, live s' j = if decide (j = eid) then b else live s j) ∧
        components s' = components s ∧
        componentEids s' = componentEids s ∧
        trace s' = trace s.
Proof.
  intros [es cs ds tr Hes Hcs Hds Hrows] He.
  destruct (lookup_lt_is_Some_2 es eid) as [b0 Hb0]; [lia|].
  exists (mkState (Some (<[eid := b]> es)) (Some cs) (Some ds) tr). split_and!; try done.
  - unfold set_entity. cbn. by rewrite Hb0.
  - constructor; rewrite ?length_insert; done.
  - intros j. unfold live. cbn. destruct (decide (j = eid)) as [->|Hne].
    + by rewrite list_lookup_insert_eq by lia.
    + by rewrite list_lookup_insert_ne.
Qed.

Lemma set_entity_same s eid :
  wf s → eid < kMaxEntities →
  set_entity eid (live s eid) s = Some (tt, s).
Proof.
  intros [es cs ds tr Hes Hcs Hds Hrows] He.
  destruct (lookup_lt_is_Some_2 es eid) as [b0 Hb0]; [lia|].
  unfold set_entity, live. cbn. rewrite Hb0. cbn.
  by rewrite list_insert_id.
Qed.

Lemma alloc_wf s : wf s → alloc s = Some (tt, s).
Proof. by intros []. Qed.

Lemma fresh_wf tr : wf (fresh tr).
Proof.
  constructor; rewrite ?length_replicate; try done.
  intros cid row [-> _]%lookup_replicate. by rewrite length_replicate.
Qed.

Lemma fresh_live tr eid : live (fresh tr) eid = false.
Proof.
  unfold live, fresh. cbn.
  destruct (replicate kMaxEntities false !! eid) as [b|] eqn:Hb; [|done].
  by apply lookup_replicate in Hb as [-> _].
Qed.

Lemma fresh_slot tr cid eid : slot (fresh tr) cid eid = None.
Proof.
  unfold slot, fresh. cbn.
  destruct (replicate numCids _ !! cid) as [row|] eqn:Hr; [|done].
  apply lookup_replicate in Hr as [-> _]. cbn.
  destruct (replicate kMaxEntities _ !! eid) as [p|] eqn:Hp; [|done].
  by apply lookup_replicate in Hp as [-> _].
Qed.

Lemma fresh_dense tr cid : dense (fresh tr) cid = [].
Proof.
  unfold dense, fresh. cbn.
  destruct (replicate numCids _ !! cid) as [l|] eqn:Hl; [|done].
  by apply lookup_replicate in Hl as [-> _].
Qed.

(** The scan returns the first identifier from [eid] on that is not live, or
    the end of the range. *)
Lemma scan_run s n eid :
  wf s → n = 0 ∨ eid + n ≤ kMaxEntities →
  ∃ r, scan n eid s = Some (r, s) ∧ eid ≤ r ≤ eid + n ∧
       (∀ j, eid ≤ j < r → live s j = true) ∧
       (r < eid + n → live s r = false).
Proof.
  intros Hwf. revert eid. induction n as [|n IH]; intros eid Hn.
  - exists eid. cbn. split_and!; [done|lia|lia|intros; lia|lia].
  - destruct Hn as [|Hn]; [done|]. cbn [scan].
    rewrite (bind_Some _ _ _ _ _ (wf_entity_lookup s eid Hwf ltac:(lia))).
    destruct (live s eid) eqn:Hl.
    + destruct (IH (S eid)) as (r & Hr & Hb & Hlive & Hfree); [lia|].
      exists r. split_and!; [done|lia|lia| |intros; apply Hfree; lia].
      intros j Hj. destruct (decide (j = eid)) as [->|]; [done|]. apply Hlive. lia.
    + exists eid. split_and!; [done|lia|lia|intros; lia|done].
Qed.

(** [create] when some identifier is free. *)
Lemma create_free s eid :
  wf s → 1 ≤ eid < kMaxEntities → live s eid = false →
  (∀ j, 1 ≤ j < eid → live s j = true) →
  ∃ s', create s = Some (eid, s') ∧ wf s' ∧
        (∀ j, live s' j = if decide (j = eid) then true else live s j) ∧
        components s' = components s ∧
        componentEids s' = componentEids s ∧
        trace s' = trace s.
Proof.
  intros Hwf He Hfree Hbelow.
  destruct (set_entity_run s eid true Hwf ltac:(lia)) as (s' & Hset & Hs').
  exists s'. split; [|done]. unfold create.
  rewrite (bind_Some _ _ _ _ _ (alloc_wf s Hwf)).
  destruct (scan_run s (kMaxEntities - 1) 1 Hwf ltac:(lia)) as (r & Hr & Hb & Hlive & Hstop).
  assert (r = eid) as ->.
  { destruct (decide (r < eid)) as [Hlt|Hge].
    - rewrite Hbelow in Hstop by lia. discriminate Hstop. lia.
    - destruct (decide (eid < r)) as [Hgt|]; [|lia].
      rewrite Hlive in Hfree by lia. done. }
  rewrite (bind_Some _ _ _ _ _ Hr). rewrite decide_False by lia.
  by rewrite (bind_Some _ _ _ _ _ Hset).
Qed.

(** [create] when every identifier of [1, kMaxEntities) is live. *)
Lemma create_full s :
  wf s → (∀ j, 1 ≤ j < kMaxEntities → live s j = true) →
  create s = Some (kMaxEntities `max` 1,
                   mkState (entities s) (components s) (componentEids s)
                           (trace s ++ [Logged "Maximum number of entities reached!"])).
Proof.
  intros Hwf Hall. unfold create.
  rewrite (bind_Some _ _ _ _ _ (alloc_wf s Hwf)).
  destruct (scan_run s (kMaxEntities - 1) 1 Hwf ltac:(lia)) as (r & Hr & Hb & Hlive & Hstop).
  assert (r = kMaxEntities `max` 1) as ->.
  { destruct (decide (r < 1 + (kMaxEntities - 1))) as [Hlt|]; [|lia].
    rewrite Hall in Hstop by lia. discriminate Hstop. done. }
  rewrite (bind_Some _ _ _ _ _ Hr). rewrite decide_True by lia. done.
Qed.

(** ** Preservation of the invariant *)

Lemma consistent_remove s s' cid eid :
  consistent s →
  (∀ cid' eid', slot s' cid' eid' =
     if decide (cid' = cid ∧ eid' = eid) then None else slot s cid' eid') →
  (∀ cid', dense s' cid' =
     if decide (cid' = cid) then find_erase eid (dense s cid) else dense s cid') →
  consistent s'.
Proof.
  intros Hc Hslot Hdense cid'. destruct (Hc cid') as [Hnd Hmem].
  rewrite Hdense. destruct (decide (cid' = cid)) as [->|Hne].
  - destruct (find_erase_NoDup eid _ Hnd) as [Hnd' Hmem']. split; [done|].
    intros eid'. rewrite Hmem', Hslot, Hmem.
    destruct (decide (eid' = eid)) as [->|Hne].
    + rewrite decide_True by done. split; [by intros [_ []]|by intros []].
    + rewrite decide_False by (by intros [_ ?]). by split; [intros []|].
  - split; [done|]. intros eid'. rewrite Hslot, decide_False by (by intros [? _]).
    apply Hmem.
Qed.

Lemma consistent_install s s' cid eid c :
  consistent s → slot s cid eid = None →
  (∀ cid' eid', slot s' cid' eid' =
     if decide (cid' = cid ∧ eid' = eid) then Some c else slot s cid' eid') →
  (∀ cid', dense s' cid' =
     if decide (cid' = cid) then dense s cid ++ [eid] else dense s cid') →
  consistent s'.
Proof.
  intros Hc Hempty Hslot Hdense cid'. destruct (Hc cid') as [Hnd Hmem].
  rewrite Hdense. destruct (decide (cid' = cid)) as [->|Hne].
  - assert (Hnin : eid ∉ dense s cid).
    { rewrite Hmem, Hempty. by intros []. }
    split.
    + apply NoDup_app. split_and!; [done| |apply NoDup_singleton].
      intros x Hx ->%list_elem_of_singleton. done.
    + intros eid'. rewrite elem_of_app, list_elem_of_singleton, Hslot, Hmem.
      destruct (decide (eid' = eid)) as [->|Hne].
      * rewrite decide_True by done. split; [by eexists|by right].
      * rewrite decide_False by (by intros [_ ?]). by split; [intros [|]|left].
  - split; [done|]. intros eid'. rewrite Hslot, decide_False by (by intros [? _]).
    apply Hmem.
Qed.

Lemma consistent_same s s' :
  consistent s → components s' = components s →
  componentEids s' = componentEids s → consistent s'.
Proof.
  intros Hc H1 H2 cid. rewrite (dense_same_eids _ _ _ H2).
  destruct (Hc cid) as [Hnd Hmem]. split; [done|].
  intros eid. by rewrite (slot_same_components _ _ _ _ H1).
Qed.

(** [removeComponent] always returns on an allocated table, and one of two
    things happened. *)
Lemma removeComponent_cases s cid eid :
  wf s →
  removeComponent cid eid s = Some (tt, s) ∧
    (kMaxEntities ≤ eid ∨ live s eid = false ∨ numCids ≤ cid ∨ slot s cid eid = None)
  ∨ ∃ p, live s eid = true ∧ slot s cid eid = Some p.
Proof.
  intros Hwf.
  destruct (decide (kMaxEntities ≤ eid)); [left; split; [apply removeComponent_noop|]; auto|].
  destruct (live s eid) eqn:Hl; [|left; split; [apply removeComponent_noop|]; auto].
  destruct (slot s cid eid) as [p|] eqn:Hs;
    [|left; split; [apply removeComponent_noop|]; auto].
  right. by exists p.
Qed.

Lemma removeComponent_Inv s cid eid :
  Inv s → ∃ s', removeComponent cid eid s = Some (tt, s') ∧ Inv s' ∧
                entities s' = entities s.
Proof.
  intros [Hwf Hc]. destruct (removeComponent_cases s cid eid Hwf) as [[Hno _]|(p & Hl & Hs)].
  - by exists s.
  - destruct (removeComponent_occupied s cid eid p Hwf Hl Hs)
      as (s' & Hrun & Hwf' & Hes & Hslot & Hdense & _).
    exists s'. split_and!; [done| |done]. split; [done|]. by eapply consistent_remove.
Qed.

Lemma addComponent_Inv s cid eid c :
  Inv s → ∃ s', addComponent cid eid c s = Some (tt, s') ∧ Inv s' ∧
                entities s' = entities s.
Proof.
  intros [Hwf Hc].
  destruct c as [c|]; [|exists s; by rewrite addComponent_noop by auto].
  destruct (decide (kMaxEntities ≤ eid));
    [exists s; by rewrite addComponent_noop by auto|].
  destruct (live s eid) eqn:Hl; [|exists s; by rewrite addComponent_noop by auto].
  destruct (decide (numCids ≤ cid));
    [exists s; by rewrite addComponent_noop by auto|].
  rewrite addComponent_valid by (done || lia).
  assert (∃ s1, (if slot s cid eid is Some _ then removeComponent cid eid else ret tt) s
                = Some (tt, s1) ∧ Inv s1 ∧ entities s1 = entities s ∧
                slot s1 cid eid = None) as (s1 & Hrun1 & [Hwf1 Hc1] & Hes1 & Hempty).
  { destruct (slot s cid eid) as [p|] eqn:Hs; [|by exists s].
    destruct (removeComponent_occupied s cid eid p Hwf Hl Hs)
      as (s1 & Hrun & Hwf1 & Hes & Hslot & Hdense & _).
    exists s1. split_and!; [done| |done|].
    - split; [done|]. by eapply consistent_remove.
    - by rewrite Hslot, decide_True. }
  rewrite (bind_Some _ _ _ _ _ Hrun1).
  destruct (install_run s1 cid eid c Hwf1 ltac:(lia) ltac:(lia))
    as (s' & Hrun & Hwf' & Hes & Hslot & Hdense & _).
  exists s'. split_and!; [done| |congruence].
  split; [done|]. by eapply consistent_install.
Qed.

Lemma set_entity_Inv s s' eid b :
  Inv s → set_entity eid b s = Some (tt, s') → Inv s'.
Proof.
  intros [Hwf Hc] Hrun. destruct Hwf as [es cs ds tr Hes Hcs Hds Hrows].
  unfold set_entity in Hrun. cbn in Hrun.
  destruct (es !! eid) as [b0|]; [|done]. cbn in Hrun. simplify_eq. split.
  - constructor; rewrite ?length_insert; done.
  - by eapply consistent_same.
Qed.

(** ** [destroyNow] *)

(** The loop of [destroyNow], for any identifier. *)
Lemma destroy_loop_Inv s eid :
  Inv s →
  ∃ s1, for_each (seq 0 numCids) (λ cid, removeComponent cid eid) s = Some (tt, s1) ∧
        Inv s1 ∧ entities s1 = entities s.
Proof.
  intros HInv.
  apply (for_each_hoare (λ _ s1, Inv s1 ∧ entities s1 = entities s)); [done|].
  intros pre cid post s1 _ [HInv1 Hes1].
  destruct (removeComponent_Inv s1 cid eid HInv1) as (s2 & Hrun & HInv2 & Hes2).
  exists s2. split_and!; [done|done|congruence].
Qed.

(** The loop of [destroyNow] on a live entity empties every slot of the
    entity and removes it from every dense list; nothing else changes. *)
Lemma destroy_loop_live s eid :
  Inv s → live s eid = true →
  ∃ s1, for_each (seq 0 numCids) (λ cid, removeComponent cid eid) s = Some (tt, s1) ∧
        Inv s1 ∧ entities s1 = entities s ∧
        (∀ cid eid', slot s1 cid eid' = if decide (eid' = eid) then None else slot s cid eid') ∧
        (∀ cid, dense s1 cid = find_erase eid (dense s cid)).
Proof.
  intros HInv Hlive.
  pose (I := λ (pre : list nat) (s1 : State),
    Inv s1 ∧ entities s1 = entities s ∧
    (∀ cid eid', slot s1 cid eid' =
       if decide (eid' = eid ∧ cid ∈ pre) then None else slot s cid eid') ∧
    (∀ cid, dense s1 cid =
       if decide (cid ∈ pre) then find_erase eid (dense s cid) else dense s cid)).
  destruct (for_each_hoare I (seq 0 numCids) (λ cid, removeComponent cid eid) s)
    as (s1 & Hrun & HInv1 & Hes1 & Hslot1 & Hdense1).
  { split_and!; [done|done| |].
    - intros cid eid'. rewrite decide_False; [done|]. by intros [_ ?%elem_of_nil].
    - intros cid. rewrite decide_False; [done|]. by intros ?%elem_of_nil. }
  { intros pre cid post s1 Hseq (HInv1 & Hes1 & Hslot1 & Hdense1).
    assert (Hfresh : cid ∉ pre).
    { pose proof (NoDup_seq 0 numCids) as Hnd. rewrite Hseq in Hnd.
      apply NoDup_app in Hnd as (_ & Hdisj & _). intros Hin.
      apply (Hdisj cid Hin). by left. }
    assert (Hl1 : live s1 eid = true) by by rewrite (live_same_entities _ _ _ Hes1).
    destruct HInv1 as [Hwf1 Hc1].
    destruct (removeComponent_cases s1 cid eid Hwf1) as [[Hno Hwhy]|(p & _ & Hs)].
    - exists s1. split; [done|]. split_and!; [done|done| |].
      + intros cid' eid'. rewrite Hslot1.
        destruct (decide (eid' = eid ∧ cid' = cid)) as [[-> ->]|Hne].
        * rewrite decide_False by (by intros [_ ?]).
          rewrite decide_True by (split; [done|set_solver]).
          destruct Hwhy as [?|[?|[?|Hs]]].
          -- apply slot_out_of_range; [apply HInv|lia].
          -- congruence.
          -- apply slot_out_of_range; [apply HInv|lia].
          -- by rewrite Hslot1, decide_False in Hs by (by intros [_ ?]).
        * repeat case_decide; set_solver.
      + intros cid'. rewrite Hdense1.
        destruct (decide (cid' = cid)) as [->|Hne].
        * rewrite decide_False by done. rewrite decide_True by set_solver.
          symmetry. apply find_erase_absent.
          destruct HInv as [Hwf Hc]. destruct (Hc cid) as [_ Hmem]. rewrite Hmem.
          assert (slot s cid eid = None) as ->; [|by intros []].
          destruct Hwhy as [?|[?|[?|Hs]]].
          -- apply slot_out_of_range; [done|lia].
          -- congruence.
          -- apply slot_out_of_range; [done|lia].
          -- by rewrite Hslot1, decide_False in Hs by (by intros [_ ?]).
        * repeat case_decide; set_solver.
    - destruct (removeComponent_occupied s1 cid eid p Hwf1 Hl1 Hs)
        as (s2 & Hrun & Hwf2 & Hes2 & Hslot2 & Hdense2 & _).
      exists s2. split; [done|]. split_and!.
      + split; [done|]. by eapply consistent_remove.
      + congruence.
      + intros cid' eid'. rewrite Hslot2, Hslot1.
        repeat case_decide; set_solver.
      + intros cid'. rewrite Hdense2, !Hdense1.
        destruct (decide (cid' = cid)) as [->|Hne].
        * rewrite decide_False by done. by rewrite decide_True by set_solver.
        * repeat case_decide; set_solver. }
  exists s1. split_and!; [done|done|done| |].
  - intros cid eid'. rewrite Hslot1.
    destruct (decide (eid' = eid)) as [->|Hne].
    + destruct (decide (cid < numCids)) as [Hc|Hc].
      * rewrite decide_True; [done|]. split; [done|]. apply elem_of_seq. lia.
      * case_decide; [done|]. apply slot_out_of_range; [apply HInv|lia].
    + rewrite decide_False; [done|]. by intros [? _].
  - intros cid. rewrite Hdense1.
    destruct (decide (cid < numCids)) as [Hc|Hc].
    + rewrite decide_True; [done|]. apply elem_of_seq. lia.
    + rewrite decide_False by (rewrite elem_of_seq; lia).
      rewrite dense_out_of_range; [done|apply HInv|lia].
Qed.

Lemma destroyNow_Inv s s' eid :
  Inv s → destroyNow eid s = Some (tt, s') → Inv s'.
Proof.
  intros HInv. unfold destroyNow. destruct (decide (eid = 0)); [by intros [= <-]|].
  destruct (destroy_loop_Inv s eid HInv) as (s1 & Hloop & HInv1 & _).
  rewrite (bind_Some _ _ _ _ _ Hloop). by apply set_entity_Inv.
Qed.

Lemma destroyNow_dead s eid :
  wf s → eid < kMaxEntities → live s eid = false →
  destroyNow eid s = Some (tt, s).
Proof.
  intros Hwf He Hdead. unfold destroyNow. destruct (decide (eid = 0)); [done|].
  rewrite (bind_Some _ _ _ _ s (for_each_id _ _ _
             (λ cid _, removeComponent_noop s cid eid Hwf (or_intror (or_introl Hdead))))).
  rewrite <- Hdead at 1. by apply set_entity_same.
Qed.

(** [destroyNow] on a live entity: the loop, then the flag. *)
Lemma destroyNow_live s eid :
  Inv s → eid ≠ 0 → live s eid = true →
  ∃ s1 s',
    for_each (seq 0 numCids) (λ cid, removeComponent cid eid) s = Some (tt, s1) ∧
    set_entity eid false s1 = Some (tt, s') ∧
    destroyNow eid s = Some (tt, s') ∧
    Inv s1 ∧ Inv s' ∧
    live s1 eid = true ∧
    (∀ j, live s' j = if decide (j = eid) then false else live s j) ∧
    (∀ cid eid', slot s1 cid eid' = if decide (eid' = eid) then None else slot s cid eid') ∧
    (∀ cid eid', slot s' cid eid' = slot s1 cid eid') ∧
    (∀ cid, dense s1 cid = find_erase eid (dense s cid)) ∧
    (∀ cid, dense s' cid = dense s1 cid).
Proof.
  intros HInv Hne Hlive.
  destruct (destroy_loop_live s eid HInv Hlive)
    as (s1 & Hloop & HInv1 & Hes1 & Hslot1 & Hdense1).
  pose proof (live_bound s eid (proj1 HInv) Hlive) as He.
  destruct (set_entity_run s1 eid false (proj1 HInv1) He)
    as (s' & Hset & Hwf' & Hlive' & Hcs' & Hds' & _).
  exists s1, s'. split_and!; try done.
  - unfold destroyNow. rewrite decide_False by done.
    by rewrite (bind_Some _ _ _ _ _ Hloop).
  - by eapply set_entity_Inv.
  - by rewrite (live_same_entities _ _ _ Hes1).
  - intros j. rewrite Hlive'. by rewrite (live_same_entities _ _ _ Hes1).
  - intros cid eid'. by apply slot_same_components.
  - intros cid. by apply dense_same_eids.
Qed.

(** ** [destroyAll] *)

Lemma live_out_of_range s eid : wf s → kMaxEntities ≤ eid → live s eid = false.
Proof.
  intros [es cs ds tr Hes _ _ _] He. unfold live. cbn.
  by rewrite lookup_ge_None_2 by lia.
Qed.

Lemma destroyAll_run s :
  Inv s →
  ∃ s', destroyAll s = Some (tt, s') ∧ Inv s' ∧
        (∀ j, 1 ≤ j → live s' j = false) ∧
        (∀ cid eid, 1 ≤ eid → live s eid = true → slot s' cid eid = None).
Proof.
  intros HInv.
  pose (I := λ (pre : list nat) (s1 : State),
    Inv s1 ∧
    (∀ j, live s1 j = if decide (j ∈ pre) then false else live s j) ∧
    (∀ cid eid, eid ∈ pre → live s eid = true → slot s1 cid eid = None)).
  destruct (for_each_hoare I (seq 1 (kMaxEntities - 1))
              (λ eid, do live <- entity_at eid;
                      if live then destroyNow eid else ret tt) s)
    as (s' & Hrun & HInv' & Hlive' & Hslot').
  { split_and!; [done| |].
    - intros j. rewrite decide_False; [done|]. by intros ?%elem_of_nil.
    - by intros cid eid ?%elem_of_nil. }
  { intros pre eid post s1 Hseq (HInv1 & Hlive1 & Hslot1).
    assert (Hrange : 1 ≤ eid < kMaxEntities).
    { assert (Hin : eid ∈ seq 1 (kMaxEntities - 1)) by (rewrite Hseq; set_solver).
      apply elem_of_seq in Hin. lia. }
    assert (Hfresh : eid ∉ pre).
    { pose proof (NoDup_seq 1 (kMaxEntities - 1)) as Hnd. rewrite Hseq in Hnd.
      apply NoDup_app in Hnd as (_ & Hdisj & _). intros Hin.
      apply (Hdisj eid Hin). by left. }
    rewrite (bind_Some _ _ _ _ _ (wf_entity_lookup s1 eid (proj1 HInv1) ltac:(lia))).
    destruct (live s1 eid) eqn:Hl.
    - destruct (destroyNow_live s1 eid HInv1 ltac:(lia) Hl)
        as (s1' & s2 & _ & _ & Hrun & _ & HInv2 & _ & Hlive2 & Hs1' & Hs2 & _).
      exists s2. split; [done|]. split_and!; [done| |].
      + intros j. rewrite Hlive2, Hlive1. repeat case_decide; set_solver.
      + intros cid eid' Hin Hwas. rewrite Hs2, Hs1'. case_decide; [done|].
        apply Hslot1; [set_solver|done].
    - exists s1. split; [done|]. split_and!; [done| |].
      + intros j. rewrite Hlive1. destruct (decide (j = eid)) as [->|].
        * rewrite Hlive1, decide_False in Hl by done.
          rewrite decide_False by done. rewrite Hl. by case_decide.
        * repeat case_decide; set_solver.
      + intros cid eid' Hin Hwas. destruct (decide (eid' = eid)) as [->|].
        * rewrite Hlive1, decide_False in Hl by done. congruence.
        * apply Hslot1; [set_solver|done]. }
  exists s'. split_and!; [done|done| |].
  - intros j Hj. destruct (decide (j < kMaxEntities)).
    + rewrite Hlive', decide_True; [done|]. apply elem_of_seq. lia.
    + apply live_out_of_range; [apply HInv'|lia].
  - intros cid eid Hge Hwas. apply Hslot'; [|done].
    apply elem_of_seq. pose proof (live_bound s eid (proj1 HInv) Hwas). lia.
Qed.

(** ** [count] *)

Lemma count_from_run s l acc :
  wf s → (∀ eid, eid ∈ l → eid < kMaxEntities) →
  count_from l acc s
  = Some (acc + length (filter (λ eid, live s eid = true) l), s).
Proof.
  intros Hwf. revert acc. induction l as [|eid l IH]; intros acc Hl.
  - cbn. by rewrite Nat.add_0_r.
  - cbn [count_from].
    rewrite (bind_Some _ _ _ _ _ (wf_entity_lookup s eid Hwf (Hl eid ltac:(left)))).
    rewrite IH by (intros; apply Hl; by right).
    rewrite filter_cons. destruct (live s eid); cbn.
    + rewrite decide_True by done. cbn. do 2 f_equal. lia.
    + by rewrite decide_False by done.
Qed.

Lemma count_run s : wf s → count s = Some (live_count s, s).
Proof.
  intros Hwf. unfold count, live_count. rewrite count_from_run; [done|done|].
  intros eid Hin%elem_of_seq. lia.
Qed.

Lemma filter_live_ext s s' (l : list nat) :
  (∀ j, j ∈ l → live s' j = live s j) →
  filter (λ eid, live s' eid = true) l = filter (λ eid, live s eid = true) l.
Proof.
  induction l as [|x l IH]; intros Hext; [done|].
  rewrite !filter_cons, (Hext x) by left.
  rewrite IH by (intros; apply Hext; by right). done.
Qed.

Lemma live_count_ext s s' :
  (∀ j, 1 ≤ j → live s' j = live s j) → live_count s' = live_count s.
Proof.
  intros Hext. unfold live_count. f_equal. apply filter_live_ext.
  intros eid Hin%elem_of_seq. apply Hext. lia.
Qed.

Lemma live_count_zero s :
  (∀ j, 1 ≤ j → live s j = false) → live_count s = 0.
Proof.
  intros Hdead. unfold live_count.
  assert (Hgen : ∀ l : list nat, (∀ j, j ∈ l → 1 ≤ j) →
            filter (λ eid, live s eid = true) l = []).
  { induction l as [|x l IH]; intros Hl; [done|].
    rewrite filter_cons, decide_False.
    - apply IH. intros; apply Hl; by right.
    - rewrite Hdead; [done|]. apply Hl. by left. }
  rewrite Hgen; [done|]. intros j Hin%elem_of_seq. lia.
Qed.

(** ** The accessors *)

Lemma getComponent_run s cid eid :
  wf s → getComponent cid eid s = Some (slot s cid eid, s).
Proof.
  intros Hwf. unfold getComponent. cbn.
  destruct (decide (eid < kMaxEntities ∧ cid < numCids)) as [[He Hc]|Hout].
  - by apply wf_slot_lookup.
  - rewrite slot_out_of_range; [done|done|lia].
Qed.

Lemma getAll_run s cid : wf s → getAll cid s = Some (dense s cid, s).
Proof.
  intros Hwf. unfold getAll. destruct (decide (cid < numCids)) as [Hc|Hc].
  - by apply wf_eids_lookup.
  - rewrite dense_out_of_range; [done|done|lia].
Qed.

Lemma occurrences_NoDup eid (l : list nat) :
  NoDup l → occurrences eid l = if decide (eid ∈ l) then 1 else 0.
Proof.
  unfold occurrences. induction 1 as [|x l Hx Hnd IH]; [done|].
  rewrite filter_cons. destruct (decide (x = eid)) as [->|Hne].
  - cbn. rewrite IH, decide_False by done. by rewrite decide_True by left.
  - rewrite IH. repeat case_decide; set_solver.
Qed.

(** ** [create] on any allocated table *)

Lemma least_free s :
  wf s →
  (∃ eid, 1 ≤ eid < kMaxEntities ∧ live s eid = false ∧
          ∀ j, 1 ≤ j < eid → live s j = true)
  ∨ (∀ j, 1 ≤ j < kMaxEntities → live s j = true).
Proof.
  intros Hwf.
  destruct (scan_run s (kMaxEntities - 1) 1 Hwf ltac:(lia)) as (r & _ & Hb & Hlive & Hstop).
  destruct (decide (r < kMaxEntities)) as [Hlt|Hge].
  - left. exists r. split_and!; [lia|lia|apply Hstop; lia|done].
  - right. intros j Hj. apply Hlive. lia.
Qed.

Lemma create_Inv s eid s' :
  Inv s → create s = Some (eid, s') →
  Inv s' ∧ (∀ j, live s j = true → live s' j = true).
Proof.
  intros [Hwf Hc] Hrun. destruct (least_free s Hwf) as [(e & He & Hfree & Hbelow)|Hfull].
  - destruct (create_free s e Hwf He Hfree Hbelow)
      as (s1 & Hrun1 & Hwf1 & Hlive1 & Hcs1 & Hds1 & _).
    rewrite Hrun1 in Hrun. simplify_eq. split; [split; [done|by eapply consistent_same]|].
    intros j Hj. rewrite Hlive1. by case_decide.
  - rewrite (create_full s Hwf Hfull) in Hrun. simplify_eq. split; [|done].
    split; [|by eapply consistent_same]. by destruct Hwf; constructor.
Qed.

Lemma fresh_Inv tr : Inv (fresh tr).
Proof.
  split; [apply fresh_wf|]. intros cid. rewrite fresh_dense. split; [constructor|].
  intros eid. rewrite fresh_slot. split; [by intros ?%elem_of_nil|by intros []].
Qed.

(** Every reachable state is well-formed and consistent. *)
Lemma reachable_Inv s : reachable s → Inv s.
Proof.
  induction 1 as [|s c s' _ IH Hexec]; [apply fresh_Inv|].
  destruct c as [|eid| |cid eid c|cid eid]; cbn in Hexec.
  - apply bind_inv in Hexec as (eid & s1 & Hrun & [= <-]).
    by eapply create_Inv.
  - by eapply destroyNow_Inv.
  - destruct (destroyAll_run s IH) as (s1 & Hrun & HInv & _). congruence.
  - destruct (addComponent_Inv s cid eid c IH) as (s1 & Hrun & HInv & _). congruence.
  - destruct (removeComponent_Inv s cid eid IH) as (s1 & Hrun & HInv & _). congruence.
Qed.

Lemma create_many_run n s ids s1 :
  Inv s → create_many n s = Some (ids, s1) →
  (∀ e, e ∈ ids → e < kMaxEntities) →
  Inv s1 ∧ length ids = n ∧
  (∀ j, live s j = true → live s1 j = true) ∧
  (∀ e, e ∈ ids → 1 ≤ e ∧ live s1 e = true ∧ ∀ j, 1 ≤ j < e → live s1 j = true).
Proof.
  revert s ids s1. induction n as [|n IH]; intros s ids s1 HInv Hrun Hvalid.
  - cbn in Hrun. injection Hrun as <- <-. split_and!; [done|done|done|].
    by intros e ?%elem_of_nil.
  - cbn [create_many] in Hrun.
    apply bind_inv in Hrun as (e & s' & Hcreate & Hrun).
    apply bind_inv in Hrun as (es & s2 & Hmany & [= <- <-]).
    assert (He : e < kMaxEntities) by (apply Hvalid; left).
    destruct (create_Inv s e s' HInv Hcreate) as [HInv' Hmono].
    destruct (IH s' es s2 HInv' Hmany) as (HInv2 & Hlen & Hmono2 & Hids).
    { intros; apply Hvalid. by right. }
    split_and!; [done|by rewrite <- Hlen|auto|].
    intros x [->|Hx]%elem_of_cons; [|by apply Hids].
    destruct (least_free s (proj1 HInv)) as [(e' & He' & Hfree & Hbelow)|Hfull].
    + destruct (create_free s e' (proj1 HInv) He' Hfree Hbelow)
        as (s1' & Hrun1 & _ & Hlive1 & _).
      rewrite Hrun1 in Hcreate. simplify_eq. split_and!; [lia| |].
      * apply Hmono2. by rewrite Hlive1, decide_True.
      * intros j Hj. apply Hmono2, Hmono, Hbelow. lia.
    + rewrite (create_full s (proj1 HInv) Hfull) in Hcreate. simplify_eq. lia.
Qed.

(** ** Teardown *)

Lemma alloc_unallocated es ds tr :
  alloc (mkState es None ds tr) = Some (tt, fresh tr).
Proof. done. Qed.

Lemma dealloc_allocated s :
  Inv s →
  ∃ s1, destroyAll s = Some (tt, s1) ∧
        dealloc s = Some (tt, mkState None None None (trace s1)).
Proof.
  intros HInv. destruct (destroyAll_run s HInv) as (s1 & Hrun & _).
  exists s1. split; [done|].
  assert (∃ cs, components s = Some cs) as [cs Hcs].
  { destruct HInv as [[es cs ds tr ? ? ? ?] _]. by exists cs. }
  unfold dealloc. rewrite Hcs. by rewrite (bind_Some _ _ _ _ _ Hrun).
Qed.

Lemma events_since_app s s' evs :
  trace s' = trace s ++ evs → events_since s s' = evs.
Proof. unfold events_since. intros ->. by rewrite drop_app_length. Qed.

(** [addComponent] on valid arguments, in two steps: the slot is emptied
    (deleting the instance it held), then the new instance is installed. *)
Lemma addComponent_run s cid eid c :
  Inv s → live s eid = true → cid < numCids →
  ∃ s1 s',
    (if slot s cid eid is Some _ then removeComponent cid eid else ret tt) s = Some (tt, s1) ∧
    slot s1 cid eid = None ∧
    trace s1 = trace s ++ (if slot s cid eid is Some old then [Deleted old] else []) ∧
    install cid eid c s1 = Some (tt, s') ∧
    addComponent cid eid (Some c) s = Some (tt, s') ∧
    Inv s' ∧ entities s' = entities s ∧
    (∀ cid' eid', slot s' cid' eid' =
       if decide (cid' = cid ∧ eid' = eid) then Some c else slot s cid' eid') ∧
    trace s' = trace s1.
Proof.
  intros [Hwf Hc] Hl Hcid. pose proof (live_bound s eid Hwf Hl) as He.
  assert (∃ s1, (if slot s cid eid is Some _ then removeComponent cid eid else ret tt) s
                = Some (tt, s1) ∧ Inv s1 ∧ entities s1 = entities s ∧
                (∀ cid' eid', slot s1 cid' eid' =
                   if decide (cid' = cid ∧ eid' = eid) then None else slot s cid' eid') ∧
                trace s1 = trace s ++ (if slot s cid eid is Some old then [Deleted old] else []))
    as (s1 & Hrun1 & [Hwf1 Hc1] & Hes1 & Hslot1 & Htr1).
  { destruct (slot s cid eid) as [p|] eqn:Hs.
    - destruct (removeComponent_occupied s cid eid p Hwf Hl Hs)
        as (s1 & Hrun & Hwf1 & Hes & Hslot & Hdense & Htr).
      exists s1. split_and!; [done| |done|done|done].
      split; [done|]. by eapply consistent_remove.
    - exists s. split_and!; [done|done|done| |by rewrite app_nil_r].
      intros cid' eid'. case_decide as Heq; [|done]. by destruct Heq as [-> ->]. }
  assert (Hempty : slot s1 cid eid = None) by by rewrite Hslot1, decide_True.
  destruct (install_run s1 cid eid c Hwf1 Hcid He)
    as (s' & Hrun & Hwf' & Hes & Hslot & Hdense & Htr).
  exists s1, s'. split_and!; try done.
  - rewrite addComponent_valid by done. by rewrite (bind_Some _ _ _ _ _ Hrun1).
  - split; [done|]. by eapply consistent_install.
  - congruence.
  - intros cid' eid'. rewrite Hslot, Hslot1. by repeat case_decide.
Qed.



Lemma create_unallocated es ds tr :
  create (mkState es None ds tr) = create (fresh tr).
Proof.
  unfold create. rewrite (bind_Some _ _ _ _ _ (alloc_unallocated es ds tr)).
  by rewrite (bind_Some _ _ _ _ _ (alloc_wf _ (fresh_wf tr))).
Qed.

(** [destroyNow] on any identifier of [1, kMaxEntities) of an allocated
    table returns and leaves the identifier not live. *)
Lemma destroyNow_wf s eid :
  wf s → eid ≠ 0 → eid < kMaxEntities →
  ∃ s', destroyNow eid s = Some (tt, s') ∧ wf s' ∧ live s' eid = false.
Proof.
  intros Hwf Hne He.
  destruct (for_each_hoare (λ _ s1, wf s1) (seq 0 numCids)
              (λ cid, removeComponent cid eid) s Hwf) as (s1 & Hloop & Hwf1).
  { intros pre cid post s1 _ Hwf1.
    destruct (removeComponent_cases s1 cid eid Hwf1) as [[Hno _]|(p & Hl & Hs)].
    - by exists s1.
    - destruct (removeComponent_occupied s1 cid eid p Hwf1 Hl Hs) as (s2 & Hrun & Hwf2 & _).
      by exists s2. }
  destruct (set_entity_run s1 eid false Hwf1 He) as (s' & Hset & Hwf' & Hlive' & _).
  exists s'. split_and!; [|done|by rewrite Hlive', decide_True].
  unfold destroyNow. rewrite decide_False by done.
  by rewrite (bind_Some _ _ _ _ _ Hloop).
Qed.

Lemma reachable_calls cs s s' :
  reachable s → for_each cs exec s = Some (tt, s') → reachable s'.
Proof.
  revert s. induction cs as [|c cs IH]; intros s Hs Hrun.
  - by injection Hrun as <-.
  - cbn [for_each] in Hrun. apply bind_inv in Hrun as ([] & s1 & Hc & Hrest).
    eapply IH; [|done]. by eapply reachable_step.
Qed.

(** * The specified properties *)

(** C1, as the code has it.  When every identifier of [1, kMaxEntities) is
    live, a further [create()] returns [kMaxEntities] (the first identifier
    past the range; [1] when [kMaxEntities] is [0]) and never the sentinel
    [0]; it logs the capacity error and leaves the three tables as they
    were, so the number of live entities reported by [count()] is
    unchanged.  On a table that is not allocated yet this situation only
    arises when the range [1, kMaxEntities) is empty; [create()] then
    allocates, logs and returns [1], and [count()] is [0]. *)
Theorem create_exhausted_returns_kMaxEntities s :
  (wf s → (∀ j, 1 ≤ j < kMaxEntities → live s j = true) →
   ∃ s' n,
     create s = Some (kMaxEntities `max` 1, s') ∧
     kMaxEntities `max` 1 ≠ 0 ∧
     kMaxEntities ≤ kMaxEntities `max` 1 ∧
     entities s' = entities s ∧
     components s' = components s ∧
     componentEids s' = componentEids s ∧
     trace s' = trace s ++ [Logged "Maximum number of entities reached!"] ∧
     count s = Some (n, s) ∧ count s' = Some (n, s'))
  ∧
  (kMaxEntities ≤ 1 →
   ∀ tr, ∃ s',
     create (mkState None None None tr) = Some (1, s') ∧
     trace s' = tr ++ [Logged "Maximum number of entities reached!"] ∧
     count s' = Some (0, s')).
Proof.
  assert (Hfull_wf : ∀ s0, wf s0 →
            wf (mkState (entities s0) (components s0) (componentEids s0)
                        (trace s0 ++ [Logged "Maximum number of entities reached!"])))
    by (by intros s0 []; constructor).
  split.
  - intros Hwf Hfull. eexists _, (live_count s).
    split; [by apply create_full|]. cbn [entities components componentEids trace].
    split_and!; try done; try lia; [by apply count_run|].
    by rewrite (count_run _ (Hfull_wf s Hwf)).
  - intros Hsmall tr. eexists. split_and!.
    + rewrite create_unallocated, create_full; [|apply fresh_wf|intros; lia].
      by rewrite Nat.max_r by lia.
    + done.
    + rewrite (count_run _ (Hfull_wf _ (fresh_wf tr))).
      rewrite live_count_zero; [done|]. intros; apply fresh_live.
Qed.

(** C2 (P1).  When some identifier of [1, kMaxEntities) is not live,
    [create()] returns the lowest such identifier and marks it live, changing
    nothing else; on a table that is not allocated yet it allocates first and
    returns [1].  In particular, after [n] successful calls of [create()],
    destroying any of the identifiers they returned (so also the lowest one)
    makes the next [create()] return that identifier. *)
Theorem create_returns_lowest_free s :
  (wf s → (∃ j, 1 ≤ j < kMaxEntities ∧ live s j = false) →
   ∃ eid s',
     create s = Some (eid, s') ∧
     1 ≤ eid < kMaxEntities ∧ live s eid = false ∧
     (∀ j, 1 ≤ j < eid → live s j = true) ∧
     (∀ j, live s' j = if decide (j = eid) then true else live s j) ∧
     components s' = components s ∧
     componentEids s' = componentEids s ∧
     trace s' = trace s)
  ∧
  (2 ≤ kMaxEntities →
   ∀ tr, ∃ s',
     create (mkState None None None tr) = Some (1, s') ∧
     wf s' ∧ (∀ j, live s' j = if decide (j = 1) then true else false) ∧
     trace s' = tr)
  ∧
  (Inv s →
   ∀ n ids s1 m,
     create_many n s = Some (ids, s1) →
     (∀ e, e ∈ ids → e < kMaxEntities) →
     m ∈ ids → (∀ e, e ∈ ids → m ≤ e) →
     ∃ s2 s3, destroyNow m s1 = Some (tt, s2) ∧ create s2 = Some (m, s3)).
Proof.
  split_and!.
  - intros Hwf (j & Hj & Hfree).
    destruct (least_free s Hwf) as [(eid & He & Hdead & Hbelow)|Hfull].
    + destruct (create_free s eid Hwf He Hdead Hbelow) as (s' & Hrun & _ & Hs').
      by exists eid, s'.
    + rewrite Hfull in Hfree by done. done.
  - intros Hbig tr. rewrite create_unallocated.
    destruct (create_free (fresh tr) 1 (fresh_wf tr)) as (s' & Hrun & Hwf' & Hlive' & _ & _ & Htr).
    { lia. } { apply fresh_live. } { intros; lia. }
    exists s'. split_and!; [done|done| |done].
    intros j. rewrite Hlive'. case_decide; [done|apply fresh_live].
  - intros HInv n ids s1 m Hrun Hvalid Hm _.
    destruct (create_many_run n s ids s1 HInv Hrun Hvalid) as (HInv1 & _ & _ & Hids).
    destruct (Hids m Hm) as (Hge & Hlive & Hbelow).
    destruct (destroyNow_live s1 m HInv1 ltac:(lia) Hlive)
      as (s1' & s2 & _ & _ & Hdestroy & _ & HInv2 & _ & Hlive2 & _).
    assert (Hdead : live s2 m = false) by by rewrite Hlive2, decide_True.
    destruct (create_free s2 m (proj1 HInv2)) as (s3 & Hcreate & _).
    { split; [done|]. by apply Hvalid. }
    { done. }
    { intros j Hj. rewrite Hlive2, decide_False by lia. by apply Hbelow. }
    by exists s2, s3.
Qed.

(** C3 (I2, P6).  In every state reachable from the freshly allocated one by
    [create], [destroyNow], [destroyAll], [addComponent] and
    [removeComponent], and for every registered [cid]: an identifier of
    [0, kMaxEntities) has a non-empty slot exactly when it occurs once in the
    dense list of [cid], and the identifiers in [getAll(cid)] are exactly
    those for which [getComponent(cid, eid)] is non-empty. *)
Theorem dense_list_matches_slots s :
  reachable s →
  ∀ cid, cid < numCids →
  ∃ l, getAll cid s = Some (l, s) ∧
       (∀ eid, eid < kMaxEntities →
          (∃ c, getComponent cid eid s = Some (Some c, s)) ↔ occurrences eid l = 1) ∧
       (∀ eid, eid ∈ l ↔ ∃ c, getComponent cid eid s = Some (Some c, s)).
Proof.
  intros [Hwf Hc]%reachable_Inv cid Hcid. exists (dense s cid).
  split; [by apply getAll_run|].
  destruct (Hc cid) as [Hnd Hmem]. split.
  - intros eid _. rewrite getComponent_run by done.
    rewrite occurrences_NoDup by done. split.
    + intros [c [= Hs]]. rewrite decide_True; [done|]. apply Hmem. by rewrite Hs.
    + case_decide as Hin; [|done]. intros _. apply Hmem in Hin as [c Hs].
      exists c. by rewrite Hs.
  - intros eid. rewrite getComponent_run by done. rewrite Hmem. split.
    + intros [c Hs]. exists c. by rewrite Hs.
    + intros [c [= Hs]]. by rewrite Hs.
Qed.

(** C4 (P4).  [destroyNow(eid)] on a live identifier of [1, kMaxEntities)
    first runs the loop over the component types, after which the entity is
    still live and all its slots are empty, and only then clears the flag.
    When it returns the entity is not live, [getComponent(cid, eid)] is empty
    for every registered [cid] and [eid] is in no dense list. *)
Theorem destroyNow_cascades s eid :
  Inv s → 1 ≤ eid < kMaxEntities → live s eid = true →
  ∃ s1 s',
    for_each (seq 0 numCids) (λ cid, removeComponent cid eid) s = Some (tt, s1) ∧
    entity_at eid s1 = Some (true, s1) ∧
    (∀ cid, cid < numCids → getComponent cid eid s1 = Some (None, s1)) ∧
    set_entity eid false s1 = Some (tt, s') ∧
    destroyNow eid s = Some (tt, s') ∧
    entity_at eid s' = Some (false, s') ∧
    (∀ cid, cid < numCids →
       getComponent cid eid s' = Some (None, s') ∧
       ∃ l, getAll cid s' = Some (l, s') ∧ eid ∉ l).
Proof.
  intros HInv He Hlive.
  destruct (destroyNow_live s eid HInv ltac:(lia) Hlive)
    as (s1 & s' & Hloop & Hset & Hrun & HInv1 & HInv' & Hl1 & Hl' & Hs1 & Hs' & Hd1 & Hd').
  exists s1, s'. split_and!; try done.
  - rewrite wf_entity_lookup; [by rewrite Hl1|apply HInv1|lia].
  - intros cid _. rewrite getComponent_run by apply HInv1.
    by rewrite Hs1, decide_True.
  - rewrite wf_entity_lookup; [|apply HInv'|lia].
    by rewrite Hl', decide_True.
  - intros cid _. assert (Hempty : slot s' cid eid = None)
      by by rewrite Hs', Hs1, decide_True.
    split.
    + rewrite getComponent_run by apply HInv'. by rewrite Hempty.
    + exists (dense s' cid). split; [apply getAll_run, HInv'|].
      destruct HInv' as [_ Hc]. destruct (Hc cid) as [_ Hmem].
      rewrite Hmem, Hempty. by intros [].
Qed.

(** C5 (P5).  On an in-range [cid] and a live in-range [eid] whose slot is
    empty, [removeComponent] returns with the state unchanged.  Hence two
    calls in a row both return, the slot is empty after the first and the
    second changes nothing. *)
Theorem removeComponent_absent_is_noop s cid eid :
  wf s → cid < numCids → eid < kMaxEntities → live s eid = true →
  (getComponent cid eid s = Some (None, s) →
   removeComponent cid eid s = Some (tt, s))
  ∧
  (∃ s1, removeComponent cid eid s = Some (tt, s1) ∧
         getComponent cid eid s1 = Some (None, s1) ∧
         removeComponent cid eid s1 = Some (tt, s1)).
Proof.
  intros Hwf Hcid He Hlive. split.
  - rewrite getComponent_run by done. intros [= Hempty].
    apply removeComponent_noop; auto.
  - destruct (removeComponent_cases s cid eid Hwf) as [[Hno Hwhy]|(p & _ & Hs)].
    + assert (Hempty : slot s cid eid = None).
      { destruct Hwhy as [?|[?|[?|?]]]; [lia|congruence|lia|done]. }
      exists s. split_and!; [done| |done].
      rewrite getComponent_run by done. by rewrite Hempty.
    + destruct (removeComponent_occupied s cid eid p Hwf Hlive Hs)
        as (s1 & Hrun & Hwf1 & _ & Hslot1 & _).
      assert (Hempty : slot s1 cid eid = None) by by rewrite Hslot1, decide_True.
      exists s1. split_and!; [done| |apply removeComponent_noop; auto].
      rewrite getComponent_run by done. by rewrite Hempty.
Qed.

(** C6.  With [kTrustPointers == 0], [getComponent(cid, eid)] with
    [eid >= kMaxEntities] or [cid >= numCids] returns empty in every state,
    also where the tables are not allocated and any indexing would be
    undefined; for an in-range pair on an allocated table it returns the
    content of [components[cid][eid]]. *)
Theorem getComponent_checked cid eid :
  kTrustPointers = 0 ∧
  (∀ s, kMaxEntities ≤ eid ∨ numCids ≤ cid →
        getComponent cid eid s = Some (None, s)) ∧
  (∀ s, components s = None → slot_at cid eid s = None) ∧
  (∀ s, wf s → eid < kMaxEntities → cid < numCids →
        ∃ cs row p, components s = Some cs ∧ cs !! cid = Some row ∧
                    row !! eid = Some p ∧
                    getComponent cid eid s = Some (p, s)).
Proof.
  split_and!; [done| | |].
  - intros s Hout. unfold getComponent.
    rewrite (decide_True (P := kTrustPointers = 0)) by done.
    by rewrite decide_False by lia.
  - intros s Hnull. unfold slot_at. by rewrite Hnull.
  - intros s Hwf He Hcid. destruct Hwf as [es cs ds tr Hes Hcs Hds Hrows].
    destruct (lookup_lt_is_Some_2 cs cid) as [row Hr]; [lia|].
    destruct (lookup_lt_is_Some_2 row eid) as [p Hp]; [rewrite (Hrows _ _ Hr); lia|].
    exists cs, row, p. split_and!; [done|done|done|].
    unfold getComponent.
    rewrite (decide_True (P := kTrustPointers = 0)) by done.
    rewrite decide_True by done.
    unfold slot_at. cbn. rewrite Hr. cbn. by rewrite Hp.
Qed.

(** ** Exclusive ownership is kept by calls that respect it *)

Lemma exclusive_same s s' :
  exclusive s → components s' = components s →
  (∀ x, destroyed s' x → destroyed s x) → exclusive s'.
Proof.
  intros [Hlive_inst Hone] Hcs Hdel. split.
  - intros cid eid x. rewrite (slot_same_components _ _ _ _ Hcs).
    intros Hx Hd%Hdel. by eapply Hlive_inst.
  - intros a b a' b' x. rewrite !(slot_same_components _ _ _ _ Hcs). apply Hone.
Qed.

Lemma removeComponent_exclusive s s' cid eid :
  wf s → exclusive s → removeComponent cid eid s = Some (tt, s') → exclusive s'.
Proof.
  intros Hwf [Hlive_inst Hone] Hrun.
  destruct (removeComponent_cases s cid eid Hwf) as [[Hno _]|(p & Hl & Hs)].
  - rewrite Hno in Hrun. by injection Hrun as <-.
  - destruct (removeComponent_occupied s cid eid p Hwf Hl Hs)
      as (s1 & Hrun1 & _ & _ & Hslot & _ & Htr).
    rewrite Hrun1 in Hrun. injection Hrun as <-. split.
    + intros a b x. rewrite Hslot. case_decide as Heq; [done|].
      intros Hx. unfold destroyed. rewrite Htr, elem_of_app.
      intros [Hd|Hin]; [by eapply Hlive_inst|].
      apply list_elem_of_singleton in Hin. injection Hin as ->.
      destruct (Hone _ _ _ _ _ Hx Hs) as [-> ->]. by destruct Heq.
    + intros a b a' b' x. rewrite !Hslot. repeat case_decide; try done. apply Hone.
Qed.

Lemma set_entity_exclusive s s' eid b :
  exclusive s → set_entity eid b s = Some (tt, s') → exclusive s'.
Proof.
  intros Hexcl Hrun. unfold set_entity in Hrun.
  destruct (entities s) as [es|]; [|done]. cbn in Hrun.
  destruct (es !! eid); [|done]. cbn in Hrun. injection Hrun as <-.
  by apply (exclusive_same s).
Qed.

Lemma destroyNow_exclusive s s' eid :
  Inv s → exclusive s → destroyNow eid s = Some (tt, s') → exclusive s'.
Proof.
  intros HInv Hexcl. unfold destroyNow.
  destruct (decide (eid = 0)); [by intros [= <-]|].
  destruct (for_each_hoare (λ _ s1, wf s1 ∧ exclusive s1) (seq 0 numCids)
              (λ cid, removeComponent cid eid) s) as (s1 & Hloop & _ & Hexcl1).
  { split; [apply HInv|done]. }
  { intros pre cid post s1 _ [Hwf1 Hexcl1].
    destruct (removeComponent_cases s1 cid eid Hwf1) as [[Hno _]|(p & Hl & Hs)].
    - by exists s1.
    - destruct (removeComponent_occupied s1 cid eid p Hwf1 Hl Hs) as (s2 & Hrun & Hwf2 & _).
      exists s2. split_and!; [done|done|].
      exact (removeComponent_exclusive s1 s2 cid eid Hwf1 Hexcl1 Hrun). }
  rewrite (bind_Some _ _ _ _ _ Hloop). by apply set_entity_exclusive.
Qed.

Lemma destroyAll_exclusive s s' :
  Inv s → exclusive s → destroyAll s = Some (tt, s') → exclusive s'.
Proof.
  intros HInv Hexcl Hrun.
  destruct (for_each_hoare (λ _ s1, Inv s1 ∧ exclusive s1) (seq 1 (kMaxEntities - 1))
              (λ eid, do live <- entity_at eid;
                      if live then destroyNow eid else ret tt) s)
    as (s1 & Hloop & _ & Hexcl1); [done| |unfold destroyAll in Hrun; congruence].
  intros pre eid post s1 Hseq [HInv1 Hexcl1].
  assert (Hrange : 1 ≤ eid < kMaxEntities).
  { assert (Hin : eid ∈ seq 1 (kMaxEntities - 1)) by (rewrite Hseq; set_solver).
    apply elem_of_seq in Hin. lia. }
  rewrite (bind_Some _ _ _ _ _ (wf_entity_lookup s1 eid (proj1 HInv1) ltac:(lia))).
  destruct (live s1 eid) eqn:Hl; [|by exists s1].
  destruct (destroyNow_live s1 eid HInv1 ltac:(lia) Hl)
    as (s1' & s2 & _ & _ & Hrun2 & _ & HInv2 & _).
  exists s2. split_and!; [done|done|].
  exact (destroyNow_exclusive s1 s2 eid HInv1 Hexcl1 Hrun2).
Qed.

(** [addComponent] with an instance the caller owns: the table does not
    hold it and has not destroyed it.  The table stays exclusive. *)
Lemma addComponent_owned_instance s cid eid c :
  Inv s → exclusive s → live s eid = true → cid < numCids →
  ¬ held s c → ¬ destroyed s c →
  ∃ s1 s',
    (if slot s cid eid is Some _ then removeComponent cid eid else ret tt) s = Some (tt, s1) ∧
    slot s1 cid eid = None ∧
    trace s1 = trace s ++ (if slot s cid eid is Some old then [Deleted old] else []) ∧
    install cid eid c s1 = Some (tt, s') ∧
    addComponent cid eid (Some c) s = Some (tt, s') ∧
    Inv s' ∧ exclusive s' ∧ entities s' = entities s ∧
    (∀ cid' eid', slot s' cid' eid' =
       if decide (cid' = cid ∧ eid' = eid) then Some c else slot s cid' eid') ∧
    trace s' = trace s1.
Proof.
  intros HInv [Hlive_inst Hone] Hl Hcid Hnheld Hndead.
  destruct (addComponent_run s cid eid c HInv Hl Hcid)
    as (s1 & s' & Hrm & Hempty & Htr1 & Hinst & Hadd & HInv' & Hes' & Hslot' & Htr').
  exists s1, s'. split_and!; try done.
  assert (Hdel : ∀ x, destroyed s' x →
            destroyed s x ∨ slot s cid eid = Some x).
  { intros x. unfold destroyed. rewrite Htr', Htr1, elem_of_app.
    intros [?|Hin]; [by left|right].
    destruct (slot s cid eid) as [old|]; [|by apply elem_of_nil in Hin].
    apply list_elem_of_singleton in Hin. by injection Hin as ->. }
  split.
  - intros cid' eid' x. rewrite Hslot'. case_decide as Heq.
    + intros [= <-] [?|Hs]%Hdel; [done|]. apply Hnheld. by exists cid, eid.
    + intros Hx [?|Hs]%Hdel; [by eapply Hlive_inst|].
      destruct (Hone _ _ _ _ _ Hx Hs) as [-> ->]. by destruct Heq.
  - intros a b a' b' x. rewrite !Hslot'. repeat case_decide.
    + naive_solver.
    + intros [= <-] Hx. destruct Hnheld. by exists a', b'.
    + intros Hx [= <-]. destruct Hnheld. by exists a, b.
    + apply Hone.
Qed.

Lemma fresh_exclusive tr : exclusive (fresh tr).
Proof. split; intros *; by rewrite fresh_slot. Qed.

(** Calls that respect ownership keep the table consistent and exclusive. *)
Lemma disciplined_exclusive s : disciplined s → Inv s ∧ exclusive s.
Proof.
  induction 1 as [|s c s' _ [HInv Hexcl] Hresp Hexec];
    [split; [apply fresh_Inv|apply fresh_exclusive]|].
  destruct c as [|eid| |cid eid c|cid eid]; cbn in Hexec.
  - apply bind_inv in Hexec as (eid & s1 & Hrun & [= <-]).
    split; [by eapply create_Inv|].
    destruct (least_free s (proj1 HInv)) as [(e & He & Hfree & Hbelow)|Hfull].
    + destruct (create_free s e (proj1 HInv) He Hfree Hbelow)
        as (s2 & Hrun2 & _ & _ & Hcs2 & _ & Htr2).
      rewrite Hrun2 in Hrun. injection Hrun as _ <-.
      apply (exclusive_same s); [done|done|]. intros x. unfold destroyed. by rewrite Htr2.
    + rewrite (create_full s (proj1 HInv) Hfull) in Hrun. injection Hrun as _ <-.
      apply (exclusive_same s); [done|done|]. intros x. unfold destroyed. cbn.
      rewrite elem_of_app, list_elem_of_singleton. by intros [?|?].
  - split; [by eapply destroyNow_Inv|by eapply destroyNow_exclusive].
  - split; [|by eapply destroyAll_exclusive].
    destruct (destroyAll_run s HInv) as (s1 & Hrun & HInv1 & _). congruence.
  - assert (HInv' : Inv s').
    { destruct (addComponent_Inv s cid eid c HInv) as (s1 & Hrun & HInv1 & _). congruence. }
    split; [done|].
    assert (Hnoop : c = None ∨ kMaxEntities ≤ eid ∨ live s eid = false ∨ numCids ≤ cid →
                    exclusive s').
    { intros Hcase. rewrite (addComponent_noop s cid eid c (proj1 HInv) Hcase) in Hexec.
      by injection Hexec as <-. }
    destruct c as [c|]; [|auto].
    destruct (decide (kMaxEntities ≤ eid)); [auto|].
    destruct (live s eid) eqn:Hl; [|auto].
    destruct (decide (numCids ≤ cid)); [auto|].
    destruct Hresp as [Hnheld Hndead].
    destruct (addComponent_owned_instance s cid eid c HInv Hexcl Hl ltac:(lia) Hnheld Hndead)
      as (s1 & s2 & _ & _ & _ & _ & Hadd & _ & Hexcl2 & _).
    congruence.
  - split; [|by eapply removeComponent_exclusive; [apply HInv| |]].
    destruct (removeComponent_Inv s cid eid HInv) as (s1 & Hrun & HInv1 & _). congruence.
Qed.


(** C8.  On an in-range [cid] and a live in-range [eid] whose slot is
    occupied, [removeComponent] takes the single occurrence of [eid] out of
    the dense list of [cid]: the list was [l1 ++ eid :: l2] and becomes
    [l1 ++ l2], so the remaining identifiers keep their relative order; the
    dense lists of the other component types are untouched. *)
Theorem removeComponent_erases_once s cid eid p :
  Inv s → cid < numCids → eid < kMaxEntities → live s eid = true →
  getComponent cid eid s = Some (Some p, s) →
  ∃ s' l1 l2,
    removeComponent cid eid s = Some (tt, s') ∧
    getAll cid s = Some (l1 ++ eid :: l2, s) ∧
    getAll cid s' = Some (l1 ++ l2, s') ∧
    (eid ∉ l1) ∧ (eid ∉ l2) ∧
    (∀ cid' l, cid' ≠ cid → getAll cid' s = Some (l, s) → getAll cid' s' = Some (l, s')).
Proof.
  intros [Hwf Hc] Hcid He Hlive Hget. rewrite getComponent_run in Hget by done.
  injection Hget as Hs.
  destruct (removeComponent_occupied s cid eid p Hwf Hlive Hs)
    as (s' & Hrun & Hwf' & _ & _ & Hdense' & _).
  destruct (Hc cid) as [Hnd Hmem].
  assert (Hin : eid ∈ dense s cid) by (apply Hmem; by rewrite Hs).
  destruct (find_erase_split eid _ Hin) as (l1 & l2 & Hl & Hl1 & Herase).
  exists s', l1, l2. split_and!; [done| | |done| |].
  - rewrite getAll_run by done. by rewrite Hl.
  - rewrite getAll_run by done. by rewrite Hdense', decide_True, Herase.
  - rewrite Hl in Hnd. by apply NoDup_app in Hnd as (_ & _ & [? _]%NoDup_cons).
  - intros cid' l Hne. rewrite !getAll_run by done.
    rewrite Hdense', decide_False by done. by intros [= ->].
Qed.

(** C9 (P7).  On an allocated table with any live entities and components,
    [dealloc()] first runs [destroyAll()], after which no entity is live and
    every slot of a formerly live entity is empty, and then drops the three
    tables; a following [alloc()] gives a table where [count()] is [0] and
    [getAll(cid)] is empty for every registered [cid].  On a table that is
    not allocated [dealloc()] changes nothing. *)
Theorem release_allocate_clean s :
  Inv s →
  (∃ s1 s2 s3,
     destroyAll s = Some (tt, s1) ∧
     count s1 = Some (0, s1) ∧
     (∀ j, 1 ≤ j → live s1 j = false) ∧
     (∀ cid eid, 1 ≤ eid → live s eid = true →
        getComponent cid eid s1 = Some (None, s1)) ∧
     free_tables s1 = Some (tt, s2) ∧
     dealloc s = Some (tt, s2) ∧
     entities s2 = None ∧ components s2 = None ∧ componentEids s2 = None ∧
     alloc s2 = Some (tt, s3) ∧
     (do dealloc; alloc) s = Some (tt, s3) ∧
     count s3 = Some (0, s3) ∧
     (∀ cid, cid < numCids → getAll cid s3 = Some ([], s3)))
  ∧
  (∀ tr, dealloc (mkState None None None tr) = Some (tt, mkState None None None tr)).
Proof.
  intros HInv. split; [|done].
  destruct (destroyAll_run s HInv) as (s1 & Hall & HInv1 & Hdead & Hslots).
  destruct (dealloc_allocated s HInv) as (s1' & Hall' & Hdealloc).
  assert (s1' = s1) as -> by congruence.
  exists s1, (mkState None None None (trace s1)), (fresh (trace s1)).
  split_and!; try done.
  - rewrite count_run by apply HInv1. by rewrite live_count_zero.
  - intros cid eid Hge Hwas. rewrite getComponent_run by apply HInv1.
    by rewrite Hslots.
  - by rewrite (bind_Some _ _ _ _ _ Hdealloc).
  - rewrite count_run by apply fresh_wf. rewrite live_count_zero; [done|].
    intros; apply fresh_live.
  - intros cid _. rewrite getAll_run by apply fresh_wf. by rewrite fresh_dense.
Qed.

(** C10.  On an allocated table, [destroyNow(eid)] with [eid] in
    [1, kMaxEntities) not live leaves the whole state unchanged; hence for
    every [eid] of that range a second [destroyNow(eid)] right after the
    first changes nothing. *)
Theorem destroyNow_dead_is_noop s eid :
  wf s → 1 ≤ eid < kMaxEntities →
  (live s eid = false → destroyNow eid s = Some (tt, s))
  ∧
  (∃ s', destroyNow eid s = Some (tt, s') ∧
         destroyNow eid s' = Some (tt, s') ∧
         (do destroyNow eid; destroyNow eid) s = destroyNow eid s).
Proof.
  intros Hwf He. split; [intros; apply destroyNow_dead; [done|lia|done]|].
  destruct (destroyNow_wf s eid Hwf ltac:(lia) ltac:(lia)) as (s' & Hfirst & Hwf' & Hdead).
  assert (Hsecond : destroyNow eid s' = Some (tt, s'))
    by (apply destroyNow_dead; [done|lia|done]).
  exists s'. split_and!; [done|done|].
  rewrite (bind_Some _ _ _ _ _ Hfirst). congruence.
Qed.

(** * Further properties of the code *)

(** ** Ownership is an invariant *)

Lemma owned_same s s' :
  owned s → entities s' = entities s → components s' = components s → owned s'.
Proof.
  intros [H0 Hown] Hes Hcs. split.
  - by rewrite (live_same_entities _ _ _ Hes).
  - intros cid eid. rewrite (slot_same_components _ _ _ _ Hcs),
      (live_same_entities _ _ _ Hes). apply Hown.
Qed.

Lemma create_owned s eid s' :
  wf s → owned s → create s = Some (eid, s') → owned s' ∧ eid ≠ 0.
Proof.
  intros Hwf [H0 Hown] Hrun.
  destruct (least_free s Hwf) as [(e & He & Hfree & Hbelow)|Hfull].
  - destruct (create_free s e Hwf He Hfree Hbelow)
      as (s1 & Hrun1 & _ & Hlive1 & Hcs1 & _).
    rewrite Hrun1 in Hrun. simplify_eq. split; [|lia]. split.
    + rewrite Hlive1, decide_False by lia. done.
    + intros cid j. rewrite (slot_same_components _ _ _ _ Hcs1), Hlive1.
      intros Hs. case_decide; [done|by apply (Hown cid)].
  - rewrite (create_full s Hwf Hfull) in Hrun. simplify_eq. split; [|lia].
    by apply (owned_same s).
Qed.

Lemma removeComponent_owned s s' cid eid :
  wf s → owned s → removeComponent cid eid s = Some (tt, s') → owned s'.
Proof.
  intros Hwf [H0 Hown] Hrun.
  destruct (removeComponent_cases s cid eid Hwf) as [[Hno _]|(p & Hl & Hs)].
  - by simplify_eq.
  - destruct (removeComponent_occupied s cid eid p Hwf Hl Hs)
      as (s1 & Hrun1 & _ & Hes & Hslot & _).
    rewrite Hrun1 in Hrun. simplify_eq. split.
    + by rewrite (live_same_entities _ _ _ Hes).
    + intros cid' eid'. rewrite Hslot, (live_same_entities _ _ _ Hes).
      case_decide; [by intros []|apply Hown].
Qed.

Lemma addComponent_owned s s' cid eid c :
  Inv s → owned s → addComponent cid eid c s = Some (tt, s') → owned s'.
Proof.
  intros HInv [H0 Hown] Hrun.
  assert (Hnoop : c = None ∨ kMaxEntities ≤ eid ∨ live s eid = false ∨ numCids ≤ cid →
                  owned s').
  { intros Hcase. rewrite (addComponent_noop s cid eid c (proj1 HInv) Hcase) in Hrun.
    by simplify_eq. }
  destruct c as [c|]; [|auto].
  destruct (decide (kMaxEntities ≤ eid)); [auto|].
  destruct (live s eid) eqn:Hl; [|auto].
  destruct (decide (numCids ≤ cid)); [auto|].
  destruct (addComponent_run s cid eid c HInv Hl ltac:(lia))
    as (s1 & s2 & _ & _ & _ & _ & Hadd & _ & Hes & Hslot & _).
  rewrite Hadd in Hrun. simplify_eq. split.
  - by rewrite (live_same_entities _ _ _ Hes).
  - intros cid' eid'. rewrite Hslot, (live_same_entities _ _ _ Hes).
    case_decide as Heq; [|apply Hown]. by destruct Heq as [_ ->].
Qed.

(** [destroyNow] does not test the upper bound of its argument: past the
    loop, whose calls all return at their guard, [entities[eid] = false]
    writes outside the presence table. *)
Lemma destroyNow_out_of_range s eid :
  wf s → eid ≠ 0 → kMaxEntities ≤ eid → destroyNow eid s = None.
Proof.
  intros Hwf Hne He. unfold destroyNow. rewrite decide_False by done.
  rewrite (bind_Some _ _ _ _ s (for_each_id _ _ _
             (λ cid _, removeComponent_noop s cid eid Hwf (or_introl He)))).
  destruct Hwf as [es cs ds tr Hes _ _ _]. unfold set_entity. cbn.
  by rewrite lookup_ge_None_2 by lia.
Qed.

Lemma destroyNow_owned s s' eid :
  Inv s → owned s → destroyNow eid s = Some (tt, s') → owned s'.
Proof.
  intros HInv [H0 Hown] Hrun.
  destruct (decide (eid = 0)) as [->|Hne].
  { unfold destroyNow in Hrun. rewrite decide_True in Hrun by done.
    injection Hrun as <-. by split. }
  destruct (decide (kMaxEntities ≤ eid)) as [Hge|Hlt].
  { by rewrite (destroyNow_out_of_range s eid (proj1 HInv) Hne Hge) in Hrun. }
  destruct (live s eid) eqn:Hl.
  - destruct (destroyNow_live s eid HInv Hne Hl)
      as (s1 & s2 & _ & _ & Hrun2 & _ & _ & _ & Hlive2 & Hs1 & Hs2 & _).
    rewrite Hrun2 in Hrun. simplify_eq. split.
    + rewrite Hlive2. by case_decide.
    + intros cid j. rewrite Hs2, Hs1, Hlive2.
      case_decide; [by intros []|apply Hown].
  - rewrite (destroyNow_dead s eid (proj1 HInv) ltac:(lia) Hl) in Hrun. by simplify_eq.
Qed.

(** [destroyAll] on a table that keeps the invariants: nothing is live and
    nothing is attached afterwards. *)
Lemma destroyAll_owned s :
  Inv s → owned s →
  ∃ s', destroyAll s = Some (tt, s') ∧ Inv s' ∧ owned s' ∧
        (∀ j, live s' j = false) ∧ (∀ cid eid, slot s' cid eid = None).
Proof.
  intros HInv Hown.
  pose (I := λ (pre : list nat) (s1 : State),
    Inv s1 ∧ owned s1 ∧
    (∀ j, live s1 j = if decide (j ∈ pre) then false else live s j)).
  destruct (for_each_hoare I (seq 1 (kMaxEntities - 1))
              (λ eid, do live <- entity_at eid;
                      if live then destroyNow eid else ret tt) s)
    as (s' & Hrun & HInv' & Hown' & Hlive').
  { split_and!; [done|done|].
    intros j. rewrite decide_False; [done|]. by intros ?%elem_of_nil. }
  { intros pre eid post s1 Hseq (HInv1 & Hown1 & Hlive1).
    assert (Hrange : 1 ≤ eid < kMaxEntities).
    { assert (Hin : eid ∈ seq 1 (kMaxEntities - 1)) by (rewrite Hseq; set_solver).
      apply elem_of_seq in Hin. lia. }
    rewrite (bind_Some _ _ _ _ _ (wf_entity_lookup s1 eid (proj1 HInv1) ltac:(lia))).
    destruct (live s1 eid) eqn:Hl.
    - destruct (destroyNow_live s1 eid HInv1 ltac:(lia) Hl)
        as (s1' & s2 & _ & _ & Hrun & _ & HInv2 & _ & Hlive2 & _).
      exists s2. split; [done|].
      split_and!; [done|exact (destroyNow_owned s1 s2 eid HInv1 Hown1 Hrun)|].
      intros j. rewrite Hlive2, Hlive1. repeat case_decide; set_solver.
    - exists s1. split; [done|]. split_and!; [done|done|].
      intros j. destruct (decide (j = eid)) as [->|].
      + rewrite Hl. rewrite decide_True; [done|set_solver].
      + rewrite Hlive1. repeat case_decide; set_solver. }
  assert (Hdead : ∀ j, live s' j = false).
  { intros j. destruct (decide (j = 0)) as [->|]; [apply Hown'|].
    destruct (decide (j < kMaxEntities)).
    - rewrite Hlive', decide_True; [done|]. apply elem_of_seq. lia.
    - apply live_out_of_range; [apply HInv'|lia]. }
  exists s'. split_and!; try done.
  intros cid eid. destruct (slot s' cid eid) as [p|] eqn:Hs; [|done].
  destruct Hown' as [_ Hown'].
  specialize (Hown' cid eid ltac:(by rewrite Hs)). by rewrite Hdead in Hown'.
Qed.

Lemma fresh_owned tr : owned (fresh tr).
Proof.
  split; [apply fresh_live|]. intros cid eid. rewrite fresh_slot. by intros [].
Qed.

Lemma reachable_owned s : reachable s → owned s.
Proof.
  induction 1 as [|s c s' Hreach IH Hexec]; [apply fresh_owned|].
  pose proof (reachable_Inv s Hreach) as HInv.
  destruct c as [|eid| |cid eid c|cid eid]; cbn in Hexec.
  - apply bind_inv in Hexec as (eid & s1 & Hrun & [= <-]).
    by eapply create_owned; [apply HInv| |].
  - by eapply destroyNow_owned.
  - destruct (destroyAll_owned s HInv IH) as (s1 & Hrun & _ & Hown & _). congruence.
  - by eapply addComponent_owned.
  - by eapply removeComponent_owned; [apply HInv| |].
Qed.

(** ** Allocation, identifier [0], argument checks *)

(** X1.  [alloc()] on a state whose [components] pointer is null builds a
    table that keeps the invariants, has no live entity, no component and
    empty dense lists, and leaves the trace alone; a second [alloc()]
    changes nothing, as on any state whose [components] pointer is set. *)
Theorem alloc_gives_empty_table :
  (∀ es ds tr,
     ∃ s', alloc (mkState es None ds tr) = Some (tt, s') ∧
           Inv s' ∧ owned s' ∧ trace s' = tr ∧
           count s' = Some (0, s') ∧
           (∀ cid eid, getComponent cid eid s' = Some (None, s')) ∧
           (∀ cid, getAll cid s' = Some ([], s')) ∧
           alloc s' = Some (tt, s'))
  ∧
  (∀ s, components s ≠ None → alloc s = Some (tt, s)).
Proof.
  split.
  - intros es ds tr. exists (fresh tr). split_and!; try done.
    + apply fresh_Inv.
    + apply fresh_owned.
    + rewrite count_run by apply fresh_wf. rewrite live_count_zero; [done|].
      intros; apply fresh_live.
    + intros cid eid. rewrite getComponent_run by apply fresh_wf.
      by rewrite fresh_slot.
    + intros cid. rewrite getAll_run by apply fresh_wf. by rewrite fresh_dense.
  - intros s Hset. unfold alloc. by destruct (components s).
Qed.

(** X2 (I1).  In every reachable state identifier [0] is not live;
    [create()] never returns [0]; [addComponent], [removeComponent] and
    [destroyNow] with identifier [0] change nothing and [getComponent] with
    identifier [0] is empty. *)
Theorem entity_zero_never_live s :
  reachable s →
  live s 0 = false ∧
  (∀ e s', create s = Some (e, s') → e ≠ 0) ∧
  (∀ cid c, addComponent cid 0 c s = Some (tt, s)) ∧
  (∀ cid, removeComponent cid 0 s = Some (tt, s)) ∧
  (∀ cid, getComponent cid 0 s = Some (None, s)) ∧
  destroyNow 0 s = Some (tt, s).
Proof.
  intros Hreach. pose proof (reachable_Inv s Hreach) as [Hwf Hc].
  pose proof (reachable_owned s Hreach) as Hown.
  split_and!.
  - apply Hown.
  - intros e s' Hrun. by eapply create_owned.
  - intros cid c. apply addComponent_noop; [done|]. right. right. left. apply Hown.
  - intros cid. apply removeComponent_noop; [done|]. right. left. apply Hown.
  - intros cid. rewrite getComponent_run by done.
    destruct (slot s cid 0) as [p|] eqn:Hs; [|done].
    destruct Hown as [H0 Hown]. specialize (Hown cid 0 ltac:(by rewrite Hs)). congruence.
  - done.
Qed.

(** X3 (I4).  In every reachable state a non-empty [getComponent(cid, eid)]
    belongs to a live entity of [1, kMaxEntities), and every identifier of
    [getAll(cid)] is a live entity of that range. *)
Theorem components_only_on_live_entities s :
  reachable s →
  ∀ cid,
    (∀ eid c, getComponent cid eid s = Some (Some c, s) →
              1 ≤ eid < kMaxEntities ∧ cid < numCids ∧
              entity_at eid s = Some (true, s)) ∧
    ∃ l, getAll cid s = Some (l, s) ∧
         ∀ eid, eid ∈ l → 1 ≤ eid < kMaxEntities ∧ entity_at eid s = Some (true, s).
Proof.
  intros Hreach cid. pose proof (reachable_Inv s Hreach) as [Hwf Hc].
  pose proof (reachable_owned s Hreach) as [H0 Hown].
  assert (Hocc : ∀ eid, is_Some (slot s cid eid) →
            1 ≤ eid < kMaxEntities ∧ cid < numCids ∧ entity_at eid s = Some (true, s)).
  { intros eid [p Hs]. destruct (slot_Some_bounds s cid eid p Hwf Hs) as [Hcid He].
    pose proof (Hown cid eid ltac:(by rewrite Hs)) as Hl.
    assert (eid ≠ 0) by (intros ->; congruence).
    split_and!; [lia|lia|done|]. by rewrite wf_entity_lookup, Hl. }
  split.
  - intros eid c. rewrite getComponent_run by done. intros [= Hs].
    apply Hocc. by rewrite Hs.
  - exists (dense s cid). split; [by apply getAll_run|].
    intros eid Hin. destruct (Hc cid) as [_ Hmem]. apply Hmem in Hin.
    by destruct (Hocc eid Hin) as (? & _ & ?).
Qed.

(** X4.  [destroyNow] tests its argument against [0] only.  With an
    identifier at or past [kMaxEntities] every [removeComponent] of the loop
    returns at its guard and [entities[eid] = false] then writes outside the
    presence table: the behaviour is undefined.  The identifier [create()]
    returns on an exhausted table is such an argument. *)
Theorem destroyNow_unchecked_upper_bound s :
  wf s →
  (∀ eid, eid ≠ 0 → kMaxEntities ≤ eid → destroyNow eid s = None) ∧
  ((∀ j, 1 ≤ j < kMaxEntities → live s j = true) →
   (do e <- create; destroyNow e) s = None).
Proof.
  intros Hwf. split; [intros; by apply destroyNow_out_of_range|].
  intros Hfull. rewrite (bind_Some _ _ _ _ _ (create_full s Hwf Hfull)).
  apply destroyNow_out_of_range; [by destruct Hwf; constructor|lia|lia].
Qed.

(** X5.  [addComponent] with a null component or an identifier at or past
    [kMaxEntities] returns before it reads any table, in every state; on an
    allocated table it also returns without any effect for an entity that
    is not live and for a component type at or past [numCids].  The same
    holds for [removeComponent]. *)
Theorem invalid_arguments_are_rejected cid eid :
  (∀ s, addComponent cid eid None s = Some (tt, s)) ∧
  (∀ s c, kMaxEntities ≤ eid → addComponent cid eid c s = Some (tt, s)) ∧
  (∀ s c, wf s → live s eid = false ∨ numCids ≤ cid →
          addComponent cid eid c s = Some (tt, s)) ∧
  (∀ s, kMaxEntities ≤ eid → removeComponent cid eid s = Some (tt, s)) ∧
  (∀ s, wf s → live s eid = false ∨ numCids ≤ cid →
        removeComponent cid eid s = Some (tt, s)).
Proof.
  split_and!.
  - done.
  - intros s [c|] He; [|done]. unfold addComponent. by rewrite decide_True.
  - intros s c Hwf Hcase. apply addComponent_noop; [done|]. destruct Hcase; auto.
  - intros s He. unfold removeComponent. by rewrite decide_True.
  - intros s Hwf Hcase. apply removeComponent_noop; [done|]. destruct Hcase; auto.
Qed.

(** ** Attaching and detaching *)

Lemma find_erase_cons eid x (l : list nat) :
  find_erase eid (x :: l) = if decide (x = eid) then l else x :: find_erase eid l.
Proof.
  unfold find_erase. cbn. destruct (decide (x = eid)); [done|].
  by destruct (list_find _ l) as [[i y]|].
Qed.

Lemma find_erase_app_last eid (l : list nat) :
  eid ∉ l → find_erase eid (l ++ [eid]) = l.
Proof.
  induction l as [|x l IH]; intros Hnin; cbn [app]; rewrite find_erase_cons.
  - by rewrite decide_True.
  - apply not_elem_of_cons in Hnin as [Hne Hnin].
    rewrite decide_False by done. by rewrite IH.
Qed.

Lemma find_erase_filter eid (l : list nat) :
  NoDup l → find_erase eid l = filter (λ x, x ≠ eid) l.
Proof.
  induction 1 as [|x l Hx Hnd IH]; [done|].
  rewrite find_erase_cons, filter_cons. destruct (decide (x = eid)) as [->|Hne].
  - rewrite decide_False by (by intros []).
    rewrite <- IH. by rewrite find_erase_absent.
  - rewrite decide_True by done. by rewrite IH.
Qed.

Lemma install_eq es cs ds tr cid eid row q l c :
  cs !! cid = Some row → row !! eid = Some q → ds !! cid = Some l →
  install cid eid c (mkState (Some es) (Some cs) (Some ds) tr)
  = Some (tt, mkState (Some es)
                      (Some (<[cid := <[eid := Some c]> row]> cs))
                      (Some (<[cid := l ++ [eid]]> ds))
                      tr).
Proof.
  intros Hcs Hrow Hds.
  unfold install, bind, set_slot, eids_at, set_eids. cbn.
  rewrite Hcs. cbn. rewrite Hrow. cbn. rewrite Hds. cbn. by rewrite Hds.
Qed.

(** X6.  [addComponent] on an empty slot of a live entity stores the
    instance, appends the identifier at the end of the dense list of the
    component type and deletes nothing; every other slot, every other dense
    list and the presence table are as before. *)
Theorem addComponent_on_empty_slot s cid eid c :
  Inv s → cid < numCids → live s eid = true →
  getComponent cid eid s = Some (None, s) →
  ∃ s' l,
    addComponent cid eid (Some c) s = Some (tt, s') ∧
    getAll cid s = Some (l, s) ∧
    getAll cid s' = Some (l ++ [eid], s') ∧
    getComponent cid eid s' = Some (Some c, s') ∧
    (∀ cid' eid' q, ¬ (cid' = cid ∧ eid' = eid) →
       getComponent cid' eid' s = Some (q, s) →
       getComponent cid' eid' s' = Some (q, s')) ∧
    (∀ cid' l', cid' ≠ cid →
       getAll cid' s = Some (l', s) → getAll cid' s' = Some (l', s')) ∧
    entities s' = entities s ∧ trace s' = trace s.
Proof.
  intros [Hwf Hc] Hcid Hlive Hget. rewrite getComponent_run in Hget by done.
  injection Hget as Hempty.
  pose proof (live_bound s eid Hwf Hlive) as He.
  destruct (install_run s cid eid c Hwf Hcid He)
    as (s' & Hrun & Hwf' & Hes & Hslot & Hdense & Htr).
  exists s', (dense s cid). split_and!; try done.
  - rewrite addComponent_valid by done. by rewrite Hempty.
  - by apply getAll_run.
  - rewrite getAll_run by done. by rewrite Hdense, decide_True.
  - rewrite getComponent_run by done. by rewrite Hslot, decide_True.
  - intros cid' eid' q Hne. rewrite !getComponent_run by done.
    rewrite Hslot, decide_False by done. by intros [= ->].
  - intros cid' l' Hne. rewrite !getAll_run by done.
    rewrite Hdense, decide_False by done. by intros [= ->].
Qed.

(** X7.  Attaching an instance to an empty slot of a live entity and
    detaching it right away gives back the three tables exactly as they
    were; the only trace of the two calls is the deletion of the instance. *)
Theorem add_then_remove_restores s cid eid c :
  Inv s → cid < numCids → live s eid = true →
  getComponent cid eid s = Some (None, s) →
  (do addComponent cid eid (Some c); removeComponent cid eid) s
  = Some (tt, mkState (entities s) (components s) (componentEids s)
                      (trace s ++ [Deleted c])).
Proof.
  intros [Hwf Hc] Hcid Hlive Hget. rewrite getComponent_run in Hget by done.
  injection Hget as Hempty.
  pose proof (live_bound s eid Hwf Hlive) as He.
  assert (Hnin : eid ∉ dense s cid).
  { destruct (Hc cid) as [_ Hmem]. rewrite Hmem, Hempty. by intros []. }
  assert (Hadd : addComponent cid eid (Some c) s = install cid eid c s).
  { rewrite (addComponent_valid s cid eid c Hwf Hlive Hcid).
    unfold bind at 1. by rewrite Hempty. }
  destruct Hwf as [es cs ds tr Hes Hcs Hds Hrows].
  destruct (lookup_lt_is_Some_2 cs cid) as [row Hr]; [lia|].
  destruct (lookup_lt_is_Some_2 ds cid) as [l Hl]; [lia|].
  destruct (lookup_lt_is_Some_2 row eid) as [q Hq]; [rewrite (Hrows _ _ Hr); lia|].
  assert (q = None) as ->.
  { unfold slot in Hempty. cbn in Hempty. rewrite Hr in Hempty. cbn in Hempty.
    rewrite Hq in Hempty. by destruct q. }
  assert (dense (mkState (Some es) (Some cs) (Some ds) tr) cid = l) as Hdl.
  { unfold dense. cbn. by rewrite Hl. }
  rewrite Hdl in Hnin. apply live_true_inv in Hlive.
  rewrite (install_eq es cs ds tr cid eid row None l c Hr Hq Hl) in Hadd.
  rewrite (bind_Some _ _ _ _ _ Hadd).
  erewrite removeComponent_eq; [|done|done|done| | |].
  2:{ apply list_lookup_insert_eq. by eapply lookup_lt_Some. }
  2:{ apply list_lookup_insert_eq. by eapply lookup_lt_Some. }
  2:{ apply list_lookup_insert_eq. by eapply lookup_lt_Some. }
  cbn [entities components componentEids trace].
  rewrite !list_insert_insert_eq, find_erase_app_last by done.
  by rewrite (list_insert_id row eid None Hq), (list_insert_id cs cid row Hr),
    (list_insert_id ds cid l Hl).
Qed.

(** X8.  [removeComponent] on an occupied slot of a live entity empties the
    slot and deletes the instance it held, once; the presence table and
    every other slot are as before. *)
Theorem removeComponent_detaches s cid eid p :
  wf s → live s eid = true →
  getComponent cid eid s = Some (Some p, s) →
  ∃ s',
    removeComponent cid eid s = Some (tt, s') ∧
    getComponent cid eid s' = Some (None, s') ∧
    events_since s s' = [Deleted p] ∧
    entities s' = entities s ∧
    (∀ cid' eid' q, ¬ (cid' = cid ∧ eid' = eid) →
       getComponent cid' eid' s = Some (q, s) →
       getComponent cid' eid' s' = Some (q, s')).
Proof.
  intros Hwf Hlive Hget. rewrite getComponent_run in Hget by done.
  injection Hget as Hs.
  destruct (removeComponent_occupied s cid eid p Hwf Hlive Hs)
    as (s' & Hrun & Hwf' & Hes & Hslot & _ & Htr).
  exists s'. split_and!; try done.
  - rewrite getComponent_run by done. by rewrite Hslot, decide_True.
  - by apply events_since_app.
  - intros cid' eid' q Hne. rewrite !getComponent_run by done.
    rewrite Hslot, decide_False by done. by intros [= ->].
Qed.

(** ** Counting *)

Lemma filter_live_born s s' eid (l : list nat) :
  NoDup l → eid ∈ l →
  (∀ j, live s' j = if decide (j = eid) then true else live s j) →
  live s eid = false →
  length (filter (λ j, live s' j = true) l) = S (length (filter (λ j, live s j = true) l)).
Proof.
  intros Hnd Hin Hupd Hdead. induction Hnd as [|x l Hx Hnd IH]; [by apply elem_of_nil in Hin|].
  rewrite !filter_cons. destruct (decide (x = eid)) as [->|Hne].
  - rewrite (Hupd eid), (decide_True (P := eid = eid)) by done. rewrite Hdead.
    rewrite decide_True by done. rewrite decide_False by done. cbn. f_equal. f_equal.
    apply filter_live_ext. intros j Hj. rewrite Hupd, decide_False; [done|].
    by intros ->.
  - apply elem_of_cons in Hin as [?|Hin]; [congruence|].
    rewrite (Hupd x), (decide_False (P := x = eid)) by done.
    case_decide; cbn; by rewrite IH.
Qed.

Lemma live_count_born s s' eid :
  1 ≤ eid < kMaxEntities →
  (∀ j, live s' j = if decide (j = eid) then true else live s j) →
  live s eid = false →
  live_count s' = S (live_count s).
Proof.
  intros He Hupd Hdead. unfold live_count.
  apply (filter_live_born s s' eid); [apply NoDup_seq| |done|done].
  apply elem_of_seq. lia.
Qed.

Lemma live_count_died s s' eid :
  1 ≤ eid < kMaxEntities →
  (∀ j, live s' j = if decide (j = eid) then false else live s j) →
  live s eid = true →
  live_count s = S (live_count s').
Proof.
  intros He Hupd Hlive. apply (live_count_born s' s eid); [done| |].
  - intros j. rewrite Hupd. by case_decide; subst.
  - by rewrite Hupd, decide_True.
Qed.

(** X9.  [count()] follows the life of entities: a [create()] that returns
    an identifier below [kMaxEntities] raises it by one, [destroyNow] of a
    live entity lowers it by one, and [addComponent] and [removeComponent]
    leave it alone. *)
Theorem count_tracks_lifecycle s :
  Inv s →
  (∀ e s', create s = Some (e, s') → e < kMaxEntities →
           ∃ n, count s = Some (n, s) ∧ count s' = Some (S n, s')) ∧
  (∀ eid, eid ≠ 0 → live s eid = true →
          ∃ s' n, destroyNow eid s = Some (tt, s') ∧
                  count s = Some (S n, s) ∧ count s' = Some (n, s')) ∧
  (∀ cid eid c, ∃ s' n, addComponent cid eid c s = Some (tt, s') ∧
                        count s = Some (n, s) ∧ count s' = Some (n, s')) ∧
  (∀ cid eid, ∃ s' n, removeComponent cid eid s = Some (tt, s') ∧
                      count s = Some (n, s) ∧ count s' = Some (n, s')).
Proof.
  intros HInv. pose proof (proj1 HInv) as Hwf. split_and!.
  - intros e s' Hrun He.
    destruct (least_free s Hwf) as [(e' & He' & Hfree & Hbelow)|Hfull].
    + destruct (create_free s e' Hwf He' Hfree Hbelow) as (s1 & Hrun1 & Hwf1 & Hlive1 & _).
      rewrite Hrun1 in Hrun. simplify_eq. exists (live_count s).
      rewrite !count_run by done. split; [done|].
      by rewrite (live_count_born s s' e).
    + rewrite (create_full s Hwf Hfull) in Hrun. simplify_eq. lia.
  - intros eid Hne Hlive.
    destruct (destroyNow_live s eid HInv Hne Hlive)
      as (s1 & s' & _ & _ & Hrun & _ & HInv' & _ & Hlive' & _).
    pose proof (live_bound s eid Hwf Hlive) as He.
    exists s', (live_count s'). rewrite !count_run by (done || apply HInv').
    split_and!; [done| |done].
    by rewrite (live_count_died s s' eid) by (done || lia).
  - intros cid eid c.
    destruct (addComponent_Inv s cid eid c HInv) as (s' & Hrun & HInv' & Hes).
    exists s', (live_count s). rewrite !count_run by (done || apply HInv').
    split_and!; [done|done|]. do 2 f_equal. apply live_count_ext.
    intros j _. by apply live_same_entities.
  - intros cid eid.
    destruct (removeComponent_Inv s cid eid HInv) as (s' & Hrun & HInv' & Hes).
    exists s', (live_count s). rewrite !count_run by (done || apply HInv').
    split_and!; [done|done|]. do 2 f_equal. apply live_count_ext.
    intros j _. by apply live_same_entities.
Qed.

Lemma count_cid_run s cid : wf s → count_cid cid s = Some (length (dense s cid), s).
Proof.
  intros Hwf. unfold count_cid. by rewrite (bind_Some _ _ _ _ _ (getAll_run s cid Hwf)).
Qed.

(** X10.  In every reachable state no component type is held by more
    entities than are live, and fewer than [kMaxEntities] entities are live:
    [count(cid) <= count() <= kMaxEntities - 1]. *)
Theorem count_bounds s :
  reachable s →
  ∀ cid, ∃ n m, count_cid cid s = Some (n, s) ∧ count s = Some (m, s) ∧
                n ≤ m ∧ m ≤ kMaxEntities - 1.
Proof.
  intros Hreach cid. pose proof (reachable_Inv s Hreach) as [Hwf Hc].
  pose proof (reachable_owned s Hreach) as [H0 Hown].
  exists (length (dense s cid)), (live_count s).
  split_and!; [by apply count_cid_run|by apply count_run| |].
  - unfold live_count. apply submseteq_length, NoDup_submseteq; [apply Hc|].
    intros eid Hin. destruct (Hc cid) as [_ Hmem]. apply Hmem in Hin as [p Hs].
    pose proof (Hown cid eid ltac:(by rewrite Hs)) as Hl.
    destruct (slot_Some_bounds s cid eid p Hwf Hs) as [_ He].
    apply list_elem_of_filter. split; [done|]. apply elem_of_seq.
    assert (eid ≠ 0) by (intros ->; congruence). lia.
  - unfold live_count. etrans; [apply length_filter|]. by rewrite length_seq.
Qed.

(** X11.  On a table that keeps the invariant [count(cid)] is the number of
    identifiers of [0, kMaxEntities) whose slot for [cid] is occupied.  For
    a component type at or past [numCids], [getAll] returns the empty list
    and [count(cid)] is [0] in every state, allocated or not. *)
Theorem count_cid_counts_occupied_slots cid :
  (∀ s, Inv s → count_cid cid s = Some (occupied_count s cid, s)) ∧
  (∀ s, numCids ≤ cid →
        getAll cid s = Some ([], s) ∧ count_cid cid s = Some (0, s)).
Proof.
  split.
  - intros s [Hwf Hc]. rewrite count_cid_run by done. do 2 f_equal.
    unfold occupied_count. apply Permutation_length.
    destruct (Hc cid) as [Hnd Hmem].
    apply NoDup_Permutation; [done|apply NoDup_filter, NoDup_seq|].
    intros eid. rewrite Hmem, list_elem_of_filter, elem_of_seq. split; [|by intros []].
    intros [p Hs]. split; [by rewrite Hs|].
    destruct (slot_Some_bounds s cid eid p Hwf Hs). lia.
  - intros s Hout.
    assert (Hall : getAll cid s = Some ([], s)).
    { unfold getAll. by rewrite decide_False by lia. }
    split; [done|]. unfold count_cid. by rewrite (bind_Some _ _ _ _ _ Hall).
Qed.

(** ** Whole-table operations *)

(** A well-sized table is determined by what can be observed of it. *)
Lemma state_ext s s' :
  wf s → wf s' →
  (∀ j, live s j = live s' j) →
  components s = components s' → componentEids s = componentEids s' →
  trace s = trace s' → s = s'.
Proof.
  intros [es cs ds tr Hes _ _ _] [es' cs' ds' tr' Hes' _ _ _] Hlive. cbn.
  intros [= <-] [= <-] <-. f_equal. f_equal. apply list_eq. intros j.
  specialize (Hlive j). unfold live in Hlive. cbn in Hlive.
  destruct (decide (j < kMaxEntities)).
  - destruct (lookup_lt_is_Some_2 es j) as [b Hb]; [lia|].
    destruct (lookup_lt_is_Some_2 es' j) as [b' Hb']; [lia|].
    rewrite Hb, Hb' in Hlive |- *. cbn in Hlive. by subst.
  - by rewrite !lookup_ge_None_2 by lia.
Qed.

Lemma empty_tables_fresh s :
  wf s → (∀ j, live s j = false) → (∀ cid eid, slot s cid eid = None) →
  (∀ cid, dense s cid = []) → s = fresh (trace s).
Proof.
  intros Hwf Hdead Hempty Hnone.
  apply state_ext; [done|apply fresh_wf| | | |done].
  - intros j. by rewrite Hdead, fresh_live.
  - destruct Hwf as [es cs ds tr Hes Hcs Hds Hrows]. cbn. f_equal. symmetry.
    apply replicate_as_elem_of. split; [done|].
    intros row [cid Hr]%list_elem_of_lookup_1. symmetry.
    apply replicate_as_elem_of. split; [by eapply Hrows|].
    intros q [eid Hq]%list_elem_of_lookup_1.
    specialize (Hempty cid eid). unfold slot in Hempty. cbn in Hempty.
    rewrite Hr in Hempty. cbn in Hempty. by rewrite Hq in Hempty.
  - destruct Hwf as [es cs ds tr Hes Hcs Hds Hrows]. cbn. f_equal. symmetry.
    apply replicate_as_elem_of. split; [done|].
    intros l [cid Hl]%list_elem_of_lookup_1.
    specialize (Hnone cid). unfold dense in Hnone. cbn in Hnone.
    by rewrite Hl in Hnone.
Qed.

Lemma destroyAll_nothing_live s :
  wf s → (∀ j, live s j = false) → destroyAll s = Some (tt, s).
Proof.
  intros Hwf Hdead. unfold destroyAll. apply for_each_id.
  intros eid Hin%elem_of_seq.
  rewrite (bind_Some _ _ _ _ _ (wf_entity_lookup s eid Hwf ltac:(lia))).
  by rewrite Hdead.
Qed.

(** X12.  In every reachable state [destroyAll()] leaves exactly the
    tables [alloc()] builds: nothing live, every slot empty, every dense
    list empty.  A second [destroyAll()] changes nothing, and [dealloc()]
    followed by [alloc()] ends in the same state as [destroyAll()]. *)
Theorem destroyAll_resets_tables s :
  reachable s →
  ∃ tr', destroyAll s = Some (tt, fresh tr') ∧
         destroyAll (fresh tr') = Some (tt, fresh tr') ∧
         (do dealloc; alloc) s = Some (tt, fresh tr').
Proof.
  intros Hreach. pose proof (reachable_Inv s Hreach) as HInv.
  destruct (destroyAll_owned s HInv (reachable_owned s Hreach))
    as (s' & Hrun & [Hwf' Hc'] & _ & Hdead & Hempty).
  assert (Hfresh : s' = fresh (trace s')).
  { apply empty_tables_fresh; try done.
    intros cid. destruct (Hc' cid) as [_ Hmem].
    destruct (dense s' cid) as [|eid l]; [done|].
    specialize (Hmem eid). rewrite Hempty in Hmem.
    destruct (proj1 Hmem) as [? [=]]. by left. }
  exists (trace s'). rewrite <- Hfresh. split_and!; [done| |].
  - by apply destroyAll_nothing_live.
  - destruct (dealloc_allocated s HInv) as (s1 & Hrun1 & Hdealloc).
    assert (s1 = s') as -> by congruence.
    rewrite (bind_Some _ _ _ _ _ Hdealloc). by rewrite Hfresh at 2.
Qed.

Lemma create_many_from n : ∀ k s,
  wf s → 1 ≤ k → k + n ≤ kMaxEntities →
  (∀ j, 1 ≤ j < k → live s j = true) →
  (∀ j, k ≤ j < kMaxEntities → live s j = false) →
  ∃ s', create_many n s = Some (seq k n, s') ∧ wf s' ∧
        (∀ j, live s' j = if decide (k ≤ j < k + n) then true else live s j) ∧
        live_count s' = live_count s + n ∧
        components s' = components s ∧ componentEids s' = componentEids s ∧
        trace s' = trace s.
Proof.
  induction n as [|n IH]; intros k s Hwf Hk Hroom Hbelow Habove.
  - exists s. split_and!; try done; try lia.
    intros j. by rewrite decide_False by lia.
  - destruct (create_free s k Hwf ltac:(lia) (Habove k ltac:(lia)) Hbelow)
      as (s1 & Hrun1 & Hwf1 & Hlive1 & Hcs1 & Hds1 & Htr1).
    destruct (IH (S k) s1 Hwf1 ltac:(lia) ltac:(lia))
      as (s' & Hrun & Hwf' & Hlive' & Hcount' & Hcs' & Hds' & Htr').
    { intros j Hj. rewrite Hlive1. case_decide; [done|]. apply Hbelow. lia. }
    { intros j Hj. rewrite Hlive1, decide_False by lia. apply Habove. lia. }
    exists s'. split_and!; try congruence.
    + cbn [create_many seq]. rewrite (bind_Some _ _ _ _ _ Hrun1).
      by rewrite (bind_Some _ _ _ _ _ Hrun).
    + intros j. rewrite Hlive', Hlive1. repeat case_decide; (done || lia).
    + rewrite Hcount', (live_count_born s s1 k); [lia|lia|done|]. apply Habove. lia.
Qed.

(** X13.  On a freshly allocated table [n] calls of [create()], with [n]
    below [kMaxEntities], return [1, 2, ..., n] in this order and [count()]
    is then [n]; when [n] is [kMaxEntities - 1] the table is full and the
    next [create()] returns [kMaxEntities]. *)
Theorem create_many_ascending n tr :
  n < kMaxEntities →
  ∃ s', create_many n (fresh tr) = Some (seq 1 n, s') ∧
        count s' = Some (n, s') ∧
        (n = kMaxEntities - 1 → ∃ s'', create s' = Some (kMaxEntities, s'')).
Proof.
  intros Hn.
  destruct (create_many_from n 1 (fresh tr) (fresh_wf tr))
    as (s' & Hrun & Hwf' & Hlive' & Hcount' & _); [lia|lia|intros; lia| |].
  { intros; apply fresh_live. }
  exists s'. split_and!; [done| |].
  - rewrite count_run by done. rewrite Hcount', live_count_zero; [done|].
    intros; apply fresh_live.
  - intros ->. eexists. rewrite create_full; [|done|].
    + by rewrite Nat.max_l by lia.
    + intros j Hj. rewrite Hlive'. by rewrite decide_True by lia.
Qed.

(** The loop of [destroyNow] deletes the components of the entity by
    ascending component type. *)
Lemma destroy_loop_trace s eid :
  wf s → live s eid = true →
  ∃ s1, for_each (seq 0 numCids) (λ cid, removeComponent cid eid) s = Some (tt, s1) ∧
        trace s1 = trace s ++ deletions_of s eid.
Proof.
  intros Hwf Hlive.
  pose (I := λ (pre : list nat) (s1 : State),
    wf s1 ∧ entities s1 = entities s ∧
    (∀ cid, cid ∉ pre → slot s1 cid eid = slot s cid eid) ∧
    trace s1 = trace s ++ omap (λ cid, Deleted <$> slot s cid eid) pre).
  destruct (for_each_hoare I (seq 0 numCids) (λ cid, removeComponent cid eid) s)
    as (s1 & Hrun & _ & _ & _ & Htr).
  { split_and!; [done|done|done|]. cbn. by rewrite app_nil_r. }
  { intros pre cid post s1 Hseq (Hwf1 & Hes1 & Hslot1 & Htr1).
    assert (Hfresh : cid ∉ pre).
    { pose proof (NoDup_seq 0 numCids) as Hnd. rewrite Hseq in Hnd.
      apply NoDup_app in Hnd as (_ & Hdisj & _). intros Hin.
      apply (Hdisj cid Hin). by left. }
    assert (Hcid : cid < numCids).
    { assert (Hin : cid ∈ seq 0 numCids) by (rewrite Hseq; set_solver).
      apply elem_of_seq in Hin. lia. }
    assert (Hl1 : live s1 eid = true) by by rewrite (live_same_entities _ _ _ Hes1).
    pose proof (live_bound s eid Hwf Hlive) as He.
    unfold I. rewrite omap_app. cbn [omap list_omap].
    destruct (removeComponent_cases s1 cid eid Hwf1) as [[Hno Hwhy]|(p & _ & Hs)].
    - assert (Hs : slot s cid eid = None).
      { rewrite <- Hslot1 by done.
        destruct Hwhy as [?|[?|[?|?]]]; [lia|congruence|lia|done]. }
      exists s1. split; [done|]. split_and!; [done|done| |].
      + intros cid' Hnin. apply Hslot1. set_solver.
      + rewrite Hs. cbn. by rewrite app_nil_r.
    - destruct (removeComponent_occupied s1 cid eid p Hwf1 Hl1 Hs)
        as (s2 & Hrun & Hwf2 & Hes2 & Hslot2 & _ & Htr2).
      exists s2. split; [done|]. split_and!; [done|congruence| |].
      + intros cid' Hnin. rewrite Hslot2, decide_False by set_solver.
        apply Hslot1. set_solver.
      + rewrite <- (Hslot1 cid Hfresh), Hs. cbn. rewrite Htr2, Htr1.
        by rewrite <- app_assoc. }
  by exists s1.
Qed.

(** X14.  [destroyNow] of a live entity deletes the components of that
    entity, each once and by ascending component type, and nothing else;
    the other entities keep their liveness and their components, and every
    dense list keeps its other identifiers in their order. *)
Theorem destroyNow_leaves_others s eid :
  Inv s → eid ≠ 0 → live s eid = true →
  ∃ s',
    destroyNow eid s = Some (tt, s') ∧
    events_since s s' = deletions_of s eid ∧
    (∀ j, j ≠ eid → live s' j = live s j) ∧
    (∀ cid eid' q, eid' ≠ eid →
       getComponent cid eid' s = Some (q, s) →
       getComponent cid eid' s' = Some (q, s')) ∧
    (∀ cid l, getAll cid s = Some (l, s) →
              getAll cid s' = Some (filter (λ x, x ≠ eid) l, s')).
Proof.
  intros HInv Hne Hlive. pose proof (proj1 HInv) as Hwf.
  destruct (destroyNow_live s eid HInv Hne Hlive)
    as (s1 & s' & Hloop & Hset & Hrun & HInv1 & HInv' & _ & Hlive' & Hs1 & Hs' & Hd1 & Hd').
  destruct (destroy_loop_trace s eid Hwf Hlive) as (s1' & Hloop' & Htr1).
  assert (s1' = s1) as -> by congruence.
  destruct (set_entity_run s1 eid false (proj1 HInv1) (live_bound s eid Hwf Hlive))
    as (s2 & Hset2 & _ & _ & _ & _ & Htr2).
  assert (s2 = s') as -> by congruence.
  exists s'. split_and!; [done| | | |].
  - apply events_since_app. congruence.
  - intros j Hj. by rewrite Hlive', decide_False.
  - intros cid eid' q Hne'. rewrite !getComponent_run by (done || apply HInv').
    rewrite Hs', Hs1, decide_False by done. by intros [= ->].
  - intros cid l. rewrite !getAll_run by (done || apply HInv'). intros [= <-].
    rewrite Hd', Hd1. do 2 f_equal. apply find_erase_filter, HInv.
Qed.

(** X15.  In every reachable state with a free identifier, creating an
    entity and destroying it right away gives back the state unchanged. *)
Theorem create_then_destroy_restores s :
  reachable s → (∃ j, 1 ≤ j < kMaxEntities ∧ live s j = false) →
  ∃ e, (do e <- create; do destroyNow e; ret e) s = Some (e, s).
Proof.
  intros Hreach (j & Hj & Hfree).
  pose proof (reachable_Inv s Hreach) as [Hwf Hc].
  pose proof (reachable_owned s Hreach) as [H0 Hown].
  destruct (least_free s Hwf) as [(e & He & Hdead & Hbelow)|Hfull];
    [|by rewrite Hfull in Hfree].
  destruct (create_free s e Hwf He Hdead Hbelow)
    as (s1 & Hcreate & Hwf1 & Hlive1 & Hcs1 & Hds1 & Htr1).
  assert (Hloop : for_each (seq 0 numCids) (λ cid, removeComponent cid e) s1 = Some (tt, s1)).
  { apply for_each_id. intros cid _. apply removeComponent_noop; [done|].
    right. right. right. rewrite (slot_same_components _ _ _ _ Hcs1).
    destruct (slot s cid e) as [p|] eqn:Hs; [|done].
    specialize (Hown cid e ltac:(by rewrite Hs)). congruence. }
  destruct (set_entity_run s1 e false Hwf1 ltac:(lia))
    as (s2 & Hset & Hwf2 & Hlive2 & Hcs2 & Hds2 & Htr2).
  exists e. rewrite (bind_Some _ _ _ _ _ Hcreate).
  assert (Hdestroy : destroyNow e s1 = Some (tt, s2)).
  { unfold destroyNow. rewrite decide_False by lia.
    by rewrite (bind_Some _ _ _ _ _ Hloop). }
  rewrite (bind_Some _ _ _ _ _ Hdestroy). unfold ret. do 2 f_equal.
  apply state_ext; try congruence.
  intros i. rewrite Hlive2, Hlive1. by case_decide; subst.
Qed.

(** ** Before allocation; diagnostics *)

(** X16.  Only [create()] allocates on demand.  On a table that is not
    allocated every access with in-range arguments goes through a null
    table: [getComponent], [getAll] and [count(cid)] in range, [count()] and
    [destroyAll()] when [kMaxEntities] is at least [2], [addComponent] and
    [removeComponent] with an identifier below [kMaxEntities], and
    [destroyNow] with any identifier but [0] have undefined behaviour. *)
Theorem use_before_allocation_is_undefined tr cid eid :
  let u := mkState None None None tr in
  (eid < kMaxEntities → cid < numCids → getComponent cid eid u = None) ∧
  (cid < numCids → getAll cid u = None ∧ count_cid cid u = None) ∧
  (2 ≤ kMaxEntities → count u = None ∧ destroyAll u = None) ∧
  (eid < kMaxEntities →
     (∀ c, addComponent cid eid (Some c) u = None) ∧
     removeComponent cid eid u = None) ∧
  (eid ≠ 0 → destroyNow eid u = None).
Proof.
  intros u. split_and!.
  - intros He Hcid. unfold getComponent.
    rewrite (decide_True (P := kTrustPointers = 0)) by done.
    by rewrite decide_True by done.
  - intros Hcid. unfold count_cid, bind, getAll. by rewrite decide_True by done.
  - intros Hbig. unfold count, destroyAll.
    destruct (kMaxEntities - 1) as [|n] eqn:Hn; [lia|]. done.
  - intros He. split; [intros c|].
    + unfold addComponent. by rewrite decide_False by lia.
    + unfold removeComponent. by rewrite decide_False by lia.
  - intros Hne. unfold destroyNow. rewrite decide_False by done.
    assert (Hloop : ∀ l : list nat,
              for_each l (λ cid, removeComponent cid eid) u = None ∨
              for_each l (λ cid, removeComponent cid eid) u = Some (tt, u)).
    { assert (Hone : ∀ x, removeComponent x eid u
                = if decide (kMaxEntities ≤ eid) then Some (tt, u) else None).
      { intros x. unfold removeComponent. by case_decide. }
      induction l as [|x l IH]; [by right|]. cbn [for_each].
      unfold bind. rewrite Hone. by case_decide; [apply IH|left]. }
    unfold bind. by destruct (Hloop (seq 0 numCids)) as [-> | ->].
Qed.

Lemma wf_same_tables s s' :
  wf s → entities s' = entities s → components s' = components s →
  componentEids s' = componentEids s → wf s'.
Proof.
  intros Hwf. destruct s'. cbn. intros -> -> ->. by destruct Hwf; constructor.
Qed.

Lemma log_run s cid :
  wf s →
  ∃ s', log cid s = Some (tt, s') ∧
        entities s' = entities s ∧ components s' = components s ∧
        componentEids s' = componentEids s ∧
        trace s' = trace s ++
          (let l := dense s cid in
           if decide (0 < length l)
           then [Logged (log_text cid (length l) (default 0 (head l)) (default 0 (last l)))]
           else []).
Proof.
  intros Hwf. unfold log.
  rewrite (bind_Some _ _ _ _ _ (count_cid_run s cid Hwf)).
  rewrite (bind_Some _ _ _ _ _ (getAll_run s cid Hwf)). cbn zeta.
  destruct (decide (0 < length (dense s cid))).
  - eexists. split; [done|]. by cbn.
  - exists s. split_and!; try done. by rewrite app_nil_r.
Qed.

(** X17.  [log] and [logAll] only report: on an allocated table they
    leave the three tables as they are and delete nothing.  [logAll] prints
    one line for each component type whose dense list is not empty, by
    ascending component type, giving the size of the list and its first and
    last identifier; on a table without components it prints nothing.
    [log] with a component type at or past [numCids] prints nothing in any
    state. *)
Theorem logAll_only_reports :
  (∀ s, wf s →
        ∃ s', logAll s = Some (tt, s') ∧
              entities s' = entities s ∧ components s' = components s ∧
              componentEids s' = componentEids s ∧
              events_since s s' = log_lines s) ∧
  (∀ tr, logAll (fresh tr) = Some (tt, fresh tr)) ∧
  (∀ s cid, numCids ≤ cid → log cid s = Some (tt, s)).
Proof.
  assert (Hall : ∀ s, wf s →
    ∃ s', logAll s = Some (tt, s') ∧
          entities s' = entities s ∧ components s' = components s ∧
          componentEids s' = componentEids s ∧
          trace s' = trace s ++ log_lines s).
  { intros s Hwf.
    pose (line := λ cid, let l := dense s cid in
       if decide (0 < length l)
       then Some (Logged (log_text cid (length l) (default 0 (head l))
                                   (default 0 (last l))))
       else None).
    pose (I := λ (pre : list nat) (s1 : State),
      entities s1 = entities s ∧ components s1 = components s ∧
      componentEids s1 = componentEids s ∧
      trace s1 = trace s ++ omap line pre).
    destruct (for_each_hoare I (seq 0 numCids) log s) as (s' & Hrun & HI).
    { unfold I. split_and!; try done. cbn. by rewrite app_nil_r. }
    { intros pre cid post s1 _ (Hes1 & Hcs1 & Hds1 & Htr1).
      destruct (log_run s1 cid (wf_same_tables s s1 Hwf Hes1 Hcs1 Hds1))
        as (s2 & Hrun & Hes2 & Hcs2 & Hds2 & Htr2).
      exists s2. split; [done|]. unfold I. split_and!; try congruence.
      rewrite Htr2, Htr1, omap_app, <- app_assoc. f_equal.
      rewrite (dense_same_eids _ _ _ Hds1). cbn [omap list_omap]. unfold line. cbn zeta.
      by case_decide. }
    exists s'. by destruct HI as (? & ? & ? & ?). }
  split_and!.
  - intros s Hwf. destruct (Hall s Hwf) as (s' & Hrun & Hes & Hcs & Hds & Htr).
    exists s'. split_and!; try done. by apply events_since_app.
  - intros tr. destruct (Hall (fresh tr) (fresh_wf tr)) as (s' & Hrun & Hes & Hcs & Hds & Htr).
    assert (Hnil : log_lines (fresh tr) = []).
    { unfold log_lines. induction (seq 0 numCids) as [|cid l IH]; [done|].
      cbn [omap list_omap]. rewrite fresh_dense. cbn. apply IH. }
    rewrite Hnil, app_nil_r in Htr.
    rewrite Hrun. do 2 f_equal. destruct s'. cbn in *. by subst.
  - intros s cid Hout. unfold log, count_cid, bind, getAll.
    by rewrite !decide_False by lia.
Qed.

(** X18.  Replacing the component of an occupied slot moves the entity to
    the back of the dense list: the list [l1 ++ eid :: l2] becomes
    [l1 ++ l2 ++ [eid]], so the entity is visited last by an iteration over
    [getAll(cid)]. *)
Theorem addComponent_replace_moves_to_back s cid eid c old :
  Inv s → live s eid = true →
  getComponent cid eid s = Some (Some old, s) →
  ∃ s' l1 l2,
    addComponent cid eid (Some c) s = Some (tt, s') ∧
    getAll cid s = Some (l1 ++ eid :: l2, s) ∧
    getAll cid s' = Some (l1 ++ l2 ++ [eid], s') ∧
    (eid ∉ l1) ∧ (eid ∉ l2).
Proof.
  intros [Hwf Hc] Hlive Hget. rewrite getComponent_run in Hget by done.
  injection Hget as Hs.
  destruct (slot_Some_bounds s cid eid old Hwf Hs) as [Hcid He].
  destruct (removeComponent_occupied s cid eid old Hwf Hlive Hs)
    as (s1 & Hrm & Hwf1 & _ & _ & Hd1 & _).
  destruct (install_run s1 cid eid c Hwf1 Hcid He)
    as (s' & Hinst & Hwf' & _ & _ & Hd' & _).
  destruct (Hc cid) as [Hnd Hmem].
  assert (Hin : eid ∈ dense s cid) by (apply Hmem; by rewrite Hs).
  destruct (find_erase_split eid _ Hin) as (l1 & l2 & Hl & Hl1 & Herase).
  exists s', l1, l2. split_and!; [| | |done|].
  - rewrite addComponent_valid by done. rewrite Hs.
    by rewrite (bind_Some _ _ _ _ _ Hrm).
  - rewrite getAll_run by done. by rewrite Hl.
  - rewrite getAll_run by done.
    by rewrite Hd', decide_True, Hd1, decide_True, Herase, <- app_assoc.
  - rewrite Hl in Hnd. by apply NoDup_app in Hnd as (_ & _ & [? _]%NoDup_cons).
Qed.

(** X19.  After [dealloc()] the table can be used again: with
    [kMaxEntities] at least [2], [create()] right after [dealloc()]
    allocates afresh and returns identifier [1], the only live entity. *)
Theorem create_after_dealloc s :
  Inv s → 2 ≤ kMaxEntities →
  ∃ s', (do dealloc; create) s = Some (1, s') ∧
        count s' = Some (1, s') ∧
        (∀ cid eid, getComponent cid eid s' = Some (None, s')) ∧
        (∀ cid, getAll cid s' = Some ([], s')).
Proof.
  intros HInv Hbig. destruct (dealloc_allocated s HInv) as (s1 & _ & Hdealloc).
  destruct (create_free (fresh (trace s1)) 1 (fresh_wf _))
    as (s' & Hcreate & Hwf' & Hlive' & Hcs' & Hds' & _);
    [lia|apply fresh_live|intros; lia|].
  exists s'. split_and!.
  - rewrite (bind_Some _ _ _ _ _ Hdealloc). by rewrite create_unallocated.
  - rewrite count_run by done. do 2 f_equal.
    rewrite (live_count_born (fresh (trace s1)) s' 1); [|lia|done|apply fresh_live].
    rewrite live_count_zero; [done|]. intros; apply fresh_live.
  - intros cid eid. rewrite getComponent_run by done.
    by rewrite (slot_same_components _ _ _ _ Hcs'), fresh_slot.
  - intros cid. rewrite getAll_run by done.
    by rewrite (dense_same_eids _ _ _ Hds'), fresh_dense.
Qed.

End EntityFu.

(** * The statements on the sample tables *)

Lemma sample_reachable {Component} (a b c : Component) : reachable 4 2 (sample a b c).
Proof.
  by apply (reachable_calls 4 2 (sample_calls a b c) (fresh 4 2 [])); [constructor|].
Qed.

Lemma sample_Inv {Component} (a b c : Component) : Inv 4 2 (sample a b c).
Proof. apply reachable_Inv, sample_reachable. Qed.




Lemma sample_full_reachable {Component} : reachable 3 1 (sample_full (Component := Component)).
Proof.
  by apply (reachable_calls 3 1 [CCreate; CCreate] (fresh 3 1 [])); [constructor|].
Qed.

Lemma sample_full_live {Component} j :
  1 ≤ j < 3 → live (sample_full (Component := Component)) j = true.
Proof. destruct j as [|[|[|j]]]; intros; (done || lia). Qed.

(** The example scenario of the specification. *)
Example spec_scenario :
  fst <$> scenario 4 1 10 20 initial = Some (1, 2, [1; 2], [2], None, 1).
Proof. reflexivity. Qed.

(** C1, as the specification states it, fails: on a table where identifiers
    [1] and [2] of [1, 3) are live, [create()] returns [3], not [0]. *)
Lemma create_exhausted_not_zero :
  wf 3 1 (sample_full (Component := nat)) ∧
  (∀ j, 1 ≤ j < 3 → live (sample_full (Component := nat)) j = true) ∧
  (∃ s', create 3 1 (sample_full (Component := nat)) = Some (3, s')) ∧
  ¬ (∃ s', create 3 1 (sample_full (Component := nat)) = Some (0, s')).
Proof.
  split_and!.
  - apply reachable_Inv, sample_full_reachable.
  - apply sample_full_live.
  - by eexists.
  - by intros [s' Hs'].
Qed.

Lemma create_exhausted_returns_kMaxEntities_witness :
  (∃ s', create 3 1 (sample_full (Component := nat)) = Some (3, s') ∧
         entities s' = entities (sample_full (Component := nat))) ∧
  (∃ s', create 1 1 (initial (Component := nat)) = Some (1, s') ∧
         count 1 s' = Some (0, s')).
Proof.
  split.
  - destruct (create_exhausted_returns_kMaxEntities (Component := nat) 3 1 sample_full)
      as [Hfull _].
    destruct (Hfull (proj1 (reachable_Inv 3 1 _ sample_full_reachable)) sample_full_live)
      as (s' & n & Hrun & _ & _ & Hes & _).
    exists s'. split; [exact Hrun|exact Hes].
  - destruct (create_exhausted_returns_kMaxEntities (Component := nat) 1 1 initial)
      as [_ Hlazy].
    destruct (Hlazy ltac:(lia) []) as (s' & Hrun & _ & Hcount).
    exists s'. split; [exact Hrun|exact Hcount].
Defined.

Lemma create_returns_lowest_free_witness :
  (∃ eid s', create 4 2 (sample 10 11 20) = Some (eid, s') ∧
             live (sample 10 11 20) eid = false ∧
             ∀ j, 1 ≤ j < eid → live (sample 10 11 20) j = true) ∧
  (∃ s', create 4 2 (initial (Component := nat)) = Some (1, s')) ∧
  (∃ s1 s2 s3, create_many 4 2 1 (sample 10 11 20) = Some ([3], s1) ∧
               destroyNow 4 2 3 s1 = Some (tt, s2) ∧
               create 4 2 s2 = Some (3, s3)).
Proof.
  destruct (create_returns_lowest_free 4 2 (sample 10 11 20))
    as (Hfirst & Hlazy & Hreuse).
  specialize (Hreuse (sample_Inv _ _ _)).
  split_and!.
  - destruct Hfirst as (eid & s' & Hrun & _ & Hfree & Hbelow & _).
    { apply sample_Inv. }
    { exists 3. split; [lia|reflexivity]. }
    exists eid, s'. split_and!; [exact Hrun|exact Hfree|exact Hbelow].
  - destruct (Hlazy ltac:(lia) []) as (s' & Hrun & _).
    exists s'. exact Hrun.
  - destruct (Hreuse 1 [3] _ 3 eq_refl) as (s2 & s3 & Hd & Hc).
    { intros e ->%list_elem_of_singleton. lia. }
    { by left. }
    { intros e ->%list_elem_of_singleton. lia. }
    eexists _, s2, s3. split_and!; [reflexivity|exact Hd|exact Hc].
Defined.

Lemma dense_list_matches_slots_witness :
  ∃ l, getAll 2 0 (sample 10 11 20) = Some (l, sample 10 11 20) ∧
       (2 ∈ l ↔ ∃ c, getComponent 4 2 0 2 (sample 10 11 20)
                      = Some (Some c, sample 10 11 20)).
Proof.
  destruct (dense_list_matches_slots 4 2 (sample 10 11 20) (sample_reachable _ _ _) 0)
    as (l & Hl & _ & Hset); [lia|].
  exists l. split; [exact Hl|apply Hset].
Defined.

Lemma destroyNow_cascades_witness :
  ∃ s', destroyNow 4 2 1 (sample 10 11 20) = Some (tt, s') ∧
        entity_at 1 s' = Some (false, s') ∧
        getComponent 4 2 0 1 s' = Some (None, s') ∧
        getComponent 4 2 1 1 s' = Some (None, s').
Proof.
  destruct (destroyNow_cascades 4 2 (sample 10 11 20) 1 (sample_Inv _ _ _))
    as (s1 & s' & _ & _ & _ & _ & Hrun & Hdead & Hslots); [lia|reflexivity|].
  exists s'. split_and!; [exact Hrun|exact Hdead| |].
  - apply (Hslots 0). lia.
  - apply (Hslots 1). lia.
Defined.

Lemma removeComponent_absent_is_noop_witness :
  removeComponent 4 2 1 2 (sample 10 11 20) = Some (tt, sample 10 11 20).
Proof.
  destruct (removeComponent_absent_is_noop 4 2 (sample 10 11 20) 1 2)
    as [Hnoop _]; [apply sample_Inv|lia|lia|reflexivity|].
  apply Hnoop. reflexivity.
Defined.

Lemma getComponent_checked_witness :
  getComponent 4 2 0 7 (initial (Component := nat)) = Some (None, initial) ∧
  ∃ p, getComponent 4 2 0 1 (sample 10 11 20) = Some (p, sample 10 11 20).
Proof.
  destruct (getComponent_checked (Component := nat) 4 2 0 7) as (_ & Hout & _).
  destruct (getComponent_checked (Component := nat) 4 2 0 1) as (_ & _ & _ & Hin).
  split.
  - apply Hout. left. lia.
  - destruct (Hin (sample 10 11 20)) as (cs & row & p & _ & _ & _ & Hget);
      [apply sample_Inv|lia|lia|].
    exists p. exact Hget.
Defined.



Lemma removeComponent_erases_once_witness :
  ∃ s' l1 l2,
    removeComponent 4 2 0 1 (sample 10 11 20) = Some (tt, s') ∧
    getAll 2 0 (sample 10 11 20) = Some (l1 ++ 1 :: l2, sample 10 11 20) ∧
    getAll 2 0 s' = Some (l1 ++ l2, s').
Proof.
  destruct (removeComponent_erases_once 4 2 (sample 10 11 20) 0 1 10)
    as (s' & l1 & l2 & Hrun & Hbefore & Hafter & _);
    [apply sample_Inv|lia|lia|reflexivity|reflexivity|].
  exists s', l1, l2. split_and!; [exact Hrun|exact Hbefore|exact Hafter].
Defined.

Lemma release_allocate_clean_witness :
  ∃ s3, (do dealloc 4 2; alloc 4 2) (sample 10 11 20) = Some (tt, s3) ∧
        count 4 s3 = Some (0, s3) ∧
        getAll 2 0 s3 = Some ([], s3) ∧ getAll 2 1 s3 = Some ([], s3).
Proof.
  destruct (release_allocate_clean 4 2 (sample 10 11 20) (sample_Inv _ _ _))
    as [(s1 & s2 & s3 & _ & _ & _ & _ & _ & _ & _ & _ & _ & _ & Hrun & Hcount & Hall) _].
  exists s3. split_and!; [exact Hrun|exact Hcount| |].
  - apply Hall. lia.
  - apply Hall. lia.
Defined.

Lemma destroyNow_dead_is_noop_witness :
  destroyNow 4 2 3 (sample 10 11 20) = Some (tt, sample 10 11 20).
Proof.
  destruct (destroyNow_dead_is_noop 4 2 (sample 10 11 20) 3)
    as [Hnoop _]; [apply sample_Inv|lia|].
  apply Hnoop. reflexivity.
Defined.

(** * The further properties on the sample tables *)

Lemma alloc_gives_empty_table_witness :
  (∃ s', alloc 4 2 (initial (Component := nat)) = Some (tt, s') ∧
         count 4 s' = Some (0, s')) ∧
  alloc 4 2 (sample 10 11 20) = Some (tt, sample 10 11 20).
Proof.
  destruct (alloc_gives_empty_table (Component := nat) 4 2) as [Hnull Hset].
  split.
  - destruct (Hnull None None []) as (s' & Hrun & _ & _ & _ & Hcount & _).
    exists s'. split; [exact Hrun|exact Hcount].
  - apply Hset. discriminate.
Defined.

Lemma entity_zero_never_live_witness :
  live (sample 10 11 20) 0 = false ∧
  addComponent 4 2 0 0 (Some 7) (sample 10 11 20) = Some (tt, sample 10 11 20).
Proof.
  destruct (entity_zero_never_live 4 2 (sample 10 11 20) (sample_reachable _ _ _))
    as (Hzero & _ & Hadd & _).
  split; [exact Hzero|apply Hadd].
Defined.

Lemma components_only_on_live_entities_witness :
  entity_at 1 (sample 10 11 20) = Some (true, sample 10 11 20).
Proof.
  destruct (components_only_on_live_entities 4 2 (sample 10 11 20)
              (sample_reachable _ _ _) 0) as [Hocc _].
  destruct (Hocc 1 10) as (_ & _ & Hlive); [reflexivity|exact Hlive].
Defined.

Lemma destroyNow_unchecked_upper_bound_witness :
  destroyNow 3 1 3 (sample_full (Component := nat)) = None ∧
  (do e <- create 3 1; destroyNow 3 1 e) (sample_full (Component := nat)) = None.
Proof.
  destruct (destroyNow_unchecked_upper_bound (Component := nat) 3 1 sample_full)
    as [Hout Hfull].
  { apply reachable_Inv, sample_full_reachable. }
  split; [apply Hout; lia|apply Hfull, sample_full_live].
Defined.

Lemma invalid_arguments_are_rejected_witness :
  addComponent 4 2 0 9 (Some 7) (initial (Component := nat)) = Some (tt, initial) ∧
  addComponent 4 2 0 3 (Some 7) (sample 10 11 20) = Some (tt, sample 10 11 20) ∧
  removeComponent 4 2 5 1 (sample 10 11 20) = Some (tt, sample 10 11 20).
Proof.
  split_and!.
  - destruct (invalid_arguments_are_rejected (Component := nat) 4 2 0 9)
      as (_ & Hout & _).
    apply Hout. lia.
  - destruct (invalid_arguments_are_rejected (Component := nat) 4 2 0 3)
      as (_ & _ & Hdead & _).
    apply Hdead; [apply sample_Inv|left; reflexivity].
  - destruct (invalid_arguments_are_rejected (Component := nat) 4 2 5 1)
      as (_ & _ & _ & _ & Hcid).
    apply Hcid; [apply sample_Inv|right; lia].
Defined.

Lemma addComponent_on_empty_slot_witness :
  ∃ s', addComponent 4 2 1 2 (Some 21) (sample 10 11 20) = Some (tt, s') ∧
        getAll 2 1 s' = Some ([1; 2], s') ∧
        getComponent 4 2 1 2 s' = Some (Some 21, s').
Proof.
  destruct (addComponent_on_empty_slot 4 2 (sample 10 11 20) 1 2 21)
    as (s' & l & Hadd & Hbefore & Hafter & Hget & _);
    [apply sample_Inv|lia|reflexivity|reflexivity|].
  injection Hbefore as <-.
  exists s'. split_and!; [exact Hadd|exact Hafter|exact Hget].
Defined.

Lemma add_then_remove_restores_witness :
  (do addComponent 4 2 1 2 (Some 21); removeComponent 4 2 1 2) (sample 10 11 20)
  = Some (tt, mkState (entities (sample 10 11 20)) (components (sample 10 11 20))
                      (componentEids (sample 10 11 20)) [Deleted 21]).
Proof.
  apply (add_then_remove_restores 4 2 (sample 10 11 20) 1 2 21);
    [apply sample_Inv|lia|reflexivity|reflexivity].
Defined.

Lemma removeComponent_detaches_witness :
  ∃ s', removeComponent 4 2 0 1 (sample 10 11 20) = Some (tt, s') ∧
        getComponent 4 2 0 1 s' = Some (None, s') ∧
        getComponent 4 2 0 2 s' = Some (Some 20, s').
Proof.
  destruct (removeComponent_detaches 4 2 (sample 10 11 20) 0 1 10)
    as (s' & Hrun & Hempty & _ & _ & Hothers);
    [apply sample_Inv|reflexivity|reflexivity|].
  exists s'. split_and!; [exact Hrun|exact Hempty|].
  apply Hothers; [lia|reflexivity].
Defined.

Lemma count_tracks_lifecycle_witness :
  (∃ s' n, destroyNow 4 2 1 (sample 10 11 20) = Some (tt, s') ∧
           count 4 (sample 10 11 20) = Some (S n, sample 10 11 20) ∧
           count 4 s' = Some (n, s')) ∧
  (∃ n s', create 4 2 (sample 10 11 20) = Some (3, s') ∧
           count 4 (sample 10 11 20) = Some (n, sample 10 11 20) ∧
           count 4 s' = Some (S n, s')).
Proof.
  destruct (count_tracks_lifecycle 4 2 (sample 10 11 20) (sample_Inv _ _ _))
    as (Hcreate & Hdestroy & _).
  split.
  - apply Hdestroy; [lia|reflexivity].
  - destruct (Hcreate 3 _ eq_refl) as (n & Hbefore & Hafter); [lia|].
    eexists n, _. split_and!; [reflexivity|exact Hbefore|exact Hafter].
Defined.

Lemma count_bounds_witness :
  ∃ n m, count_cid 2 0 (sample 10 11 20) = Some (n, sample 10 11 20) ∧
         count 4 (sample 10 11 20) = Some (m, sample 10 11 20) ∧ n ≤ m ∧ m ≤ 3.
Proof.
  apply (count_bounds 4 2 (sample 10 11 20) (sample_reachable _ _ _) 0).
Defined.

Lemma count_cid_counts_occupied_slots_witness :
  count_cid 2 0 (sample 10 11 20) = Some (2, sample 10 11 20) ∧
  count_cid 2 5 (initial (Component := nat)) = Some (0, initial).
Proof.
  split.
  - destruct (count_cid_counts_occupied_slots (Component := nat) 4 2 0) as [Hin _].
    apply (Hin (sample 10 11 20)), sample_Inv.
  - destruct (count_cid_counts_occupied_slots (Component := nat) 4 2 5) as [_ Hout].
    apply Hout. lia.
Defined.

Lemma destroyAll_resets_tables_witness :
  ∃ tr, destroyAll 4 2 (sample 10 11 20) = Some (tt, fresh 4 2 tr) ∧
        (do dealloc 4 2; alloc 4 2) (sample 10 11 20) = Some (tt, fresh 4 2 tr).
Proof.
  destruct (destroyAll_resets_tables 4 2 (sample 10 11 20) (sample_reachable _ _ _))
    as (tr & Hall & _ & Hcycle).
  exists tr. split; [exact Hall|exact Hcycle].
Defined.

Lemma create_many_ascending_witness :
  ∃ s', create_many 4 2 3 (fresh (Component := nat) 4 2 []) = Some ([1; 2; 3], s') ∧
        count 4 s' = Some (3, s') ∧
        ∃ s'', create 4 2 s' = Some (4, s'').
Proof.
  destruct (create_many_ascending (Component := nat) 4 2 3 []) as (s' & Hrun & Hcount & Hfull);
    [lia|].
  exists s'. split_and!; [exact Hrun|exact Hcount|apply Hfull; reflexivity].
Defined.

Lemma destroyNow_leaves_others_witness :
  ∃ s', destroyNow 4 2 1 (sample 10 11 20) = Some (tt, s') ∧
        events_since (sample 10 11 20) s' = [Deleted 10; Deleted 11] ∧
        getComponent 4 2 0 2 s' = Some (Some 20, s') ∧
        getAll 2 0 s' = Some ([2], s').
Proof.
  destruct (destroyNow_leaves_others 4 2 (sample 10 11 20) 1)
    as (s' & Hrun & Hev & _ & Hslots & Hlists);
    [apply sample_Inv|lia|reflexivity|].
  exists s'. split_and!; [exact Hrun|exact Hev| |].
  - apply Hslots; [lia|reflexivity].
  - apply (Hlists 0 [1; 2]). reflexivity.
Defined.

Lemma create_then_destroy_restores_witness :
  ∃ e, (do e <- create 4 2; do destroyNow 4 2 e; ret e) (sample 10 11 20)
       = Some (e, sample 10 11 20).
Proof.
  apply (create_then_destroy_restores 4 2 (sample 10 11 20) (sample_reachable _ _ _)).
  exists 3. split; [lia|reflexivity].
Defined.

Lemma use_before_allocation_is_undefined_witness :
  getComponent 4 2 0 1 (initial (Component := nat)) = None ∧
  count 4 (initial (Component := nat)) = None ∧
  addComponent 4 2 0 1 (Some 7) (initial (Component := nat)) = None ∧
  destroyNow 4 2 1 (initial (Component := nat)) = None.
Proof.
  destruct (use_before_allocation_is_undefined (Component := nat) 4 2 [] 0 1)
    as (Hget & _ & Hcount & Hadd & Hdestroy).
  split_and!.
  - apply Hget; lia.
  - apply Hcount. lia.
  - apply Hadd. lia.
  - apply Hdestroy. lia.
Defined.

Lemma logAll_only_reports_witness :
  ∃ s', logAll 2 (sample 10 11 20) = Some (tt, s') ∧
        components s' = components (sample 10 11 20) ∧
        events_since (sample 10 11 20) s'
        = [Logged "Cid 0 has 2 entities ranging from 1 to 2";
           Logged "Cid 1 has 1 entities ranging from 1 to 1"].
Proof.
  destruct (logAll_only_reports (Component := nat) 4 2) as (Hall & _).
  destruct (Hall (sample 10 11 20)) as (s' & Hrun & _ & Hcs & _ & Hev);
    [apply sample_Inv|].
  exists s'. split_and!; [exact Hrun|exact Hcs|exact Hev].
Defined.

Lemma addComponent_replace_moves_to_back_witness :
  ∃ s', addComponent 4 2 0 1 (Some 99) (sample 10 11 20) = Some (tt, s') ∧
        getAll 2 0 s' = Some ([2; 1], s').
Proof.
  destruct (addComponent_replace_moves_to_back 4 2 (sample 10 11 20) 0 1 99 10)
    as (s' & l1 & l2 & Hadd & Hbefore & Hafter & Hl1 & _);
    [apply sample_Inv|reflexivity|reflexivity|].
  exists s'. split; [exact Hadd|].
  injection Hbefore as Hbefore.
  destruct l1 as [|x l1].
  - injection Hbefore as <-. exact Hafter.
  - injection Hbefore as <- _. destruct Hl1. left.

Defined.

Lemma create_after_dealloc_witness :
  ∃ s', (do dealloc 4 2; create 4 2) (sample 10 11 20) = Some (1, s') ∧
        count 4 s' = Some (1, s').
Proof.
  destruct (create_after_dealloc 4 2 (sample 10 11 20) (sample_Inv _ _ _))
    as (s' & Hrun & Hcount & _); [lia|].
  exists s'. split; [exact Hrun|exact Hcount].
Defined.
